(** * GaussianExample: the preprocessing scripts of the 3D Gaussian Splatting
    pipeline, embedded in Rocq.

    Embedded sources:
    - [Training/extract_frames.py]           (module [ExtractFrames])
    - [Training/Scripts/run_colmap.py]       (module [RunColmap])
    - [Training/Scripts/auto_mask_bridge.py] (module [AutoMaskBridge])
    - [Training/Scripts/train_gaussian.py]   (module [TrainGaussian])
    - [Training/run_full_pipeline.py]        (module [FullPipeline])

    The scripts are effectful Python: they touch the filesystem, call
    OpenCV, start subprocesses and call pretrained models.  Effects are
    modelled by explicit state passing with Python's exceptions as error
    results; everything outside the repository (OpenCV's video decoder
    and what it accepts, the COLMAP binary, the detector, the segmentation
    model, the module search path) is a parameter of the model. *)

From Stdlib Require Import ZArith Lia Ascii String.
From Stdlib Require Import SpecFloat DecimalString DecimalN.
From stdpp Require Import base option list strings gmap sorting.

Local Open Scope Z_scope.

(* ===================================================================== *)
(** * The parts of the Python runtime the scripts rely on                 *)
(* ===================================================================== *)

Module Py.

(** Subclasses of [Exception] that the modelled code can raise. *)
Inductive exception : Type :=
| ZeroDivisionError
| OverflowError
| ValueError
| FileExistsError
| FileNotFoundError
| NotADirectoryError
| IsADirectoryError
| ModuleNotFoundError
| cv2_error
| RuntimeError (msg : string).

(** What unwinds the stack: an [Exception], or the [SystemExit] raised by
    [sys.exit(code)], which is a [BaseException] and escapes
    [except Exception]. *)
Inductive raised : Type :=
| Exc (e : exception)
| SystemExit (code : Z).

Inductive result (A : Type) : Type :=
| Ok (a : A)
| Raise (r : raised).
Arguments Ok {A} a.
Arguments Raise {A} r.

(** Computations over a state [S] that may raise; the state reached at the
    point of the raise is kept, as the filesystem keeps what was done
    before a script dies. *)
Definition M (S A : Type) : Type := S -> result A * S.

Definition ret {S A} (a : A) : M S A := fun s => (Ok a, s).

Definition bind {S A B} (m : M S A) (f : A -> M S B) : M S B :=
  fun s => match m s with
           | (Ok a, s') => f a s'
           | (Raise r, s') => (Raise r, s')
           end.

Definition raise {S A} (r : raised) : M S A := fun s => (Raise r, s).

Definition lift {S A} (r : result A) : M S A := fun s => (r, s).

Definition gets {S A} (f : S -> A) : M S A := fun s => (Ok (f s), s).

Definition modify {S} (f : S -> S) : M S unit := fun s => (Ok tt, f s).

(** [sys.exit(code)] *)
Definition sys_exit {S A} (code : Z) : M S A := raise (SystemExit code).

(** [x ← m; k] and [m;; k] are stdpp's notations for [mbind]. *)
#[global] Instance M_ret {S} : MRet (M S) := fun A a => ret a.
#[global] Instance M_bind {S} : MBind (M S) := fun A B f m => bind m f.

(** ** Integers *)

(** Truthiness of an [Optional[int]]: [None] and [0] are falsy. *)
Definition truthy (o : option Z) : bool :=
  match o with
  | None => false
  | Some n => negb (n =? 0)
  end.

(** [a // b] and [a % b]: floor division, the remainder takes the sign of
    the divisor, as [Z.div] and [Z.modulo] do. *)
Definition floordiv (a b : Z) : result Z :=
  if b =? 0 then Raise (Exc ZeroDivisionError) else Ok (a / b).

Definition mod_ (a b : Z) : result Z :=
  if b =? 0 then Raise (Exc ZeroDivisionError) else Ok (a mod b).

(** ** Floats: IEEE 754 binary64, round to nearest even *)

Definition prec : Z := 53.
Definition emax : Z := 1024.

(** [float(n)] for an [int]. *)
Definition float_of_int (n : Z) : result spec_float :=
  match binary_normalize prec emax n 0 false with
  | S754_infinity _ => Raise (Exc OverflowError)
  | x => Ok x
  end.

(** [a / b] on two [int]s.  For operands of magnitude at most [2^53]
    (any image dimension) both conversions are exact and the quotient is
    the correctly rounded one, which is what CPython returns. *)
Definition truediv (a b : Z) : result spec_float :=
  if b =? 0 then Raise (Exc ZeroDivisionError)
  else match float_of_int a, float_of_int b with
       | Ok x, Ok y =>
           match SFdiv prec emax x y with
           | S754_infinity _ => Raise (Exc OverflowError)
           | q => Ok q
           end
       | Raise r, _ => Raise r
       | _, Raise r => Raise r
       end.

(** [n * x] for an [int] [n] and a [float] [x]. *)
Definition int_mul_float (n : Z) (x : spec_float) : result spec_float :=
  match float_of_int n with
  | Ok y => Ok (SFmul prec emax y x)
  | Raise r => Raise r
  end.

(** [int(x)] for a [float]: truncation toward zero. *)
Definition int_of_float (x : spec_float) : result Z :=
  match x with
  | S754_nan => Raise (Exc ValueError)
  | S754_infinity _ => Raise (Exc OverflowError)
  | S754_zero _ => Ok 0
  | S754_finite s m e =>
      let a := if 0 <=? e then Z.shiftl (Z.pos m) e
               else Z.shiftr (Z.pos m) (- e) in
      Ok (if s then - a else a)
  end.

(** ** String formatting *)

Definition decimal (n : N) : string :=
  NilEmpty.string_of_uint (N.to_uint n).

Fixpoint zeros (k : nat) : string :=
  match k with
  | O => ""
  | S k' => String "0"%char (zeros k')
  end.

(** [s.zfill(width)] for a string of digits. *)
Definition zfill (width : nat) (s : string) : string :=
  zeros (width - String.length s) +:+ s.

(** [f"{n:05d}"]: sign-aware zero padding to five characters; longer
    numbers are printed in full. *)
Definition format_05d (n : Z) : string :=
  if n <? 0 then "-" +:+ zfill 4 (decimal (Z.to_N (- n)))
  else zfill 5 (decimal (Z.to_N n)).

(** [s.removeprefix(pre)], with [None] when [pre] is no prefix. *)
Fixpoint strip_prefix (pre s : string) : option string :=
  match pre, s with
  | EmptyString, _ => Some s
  | String a pre', String b s' =>
      if Ascii.eqb a b then strip_prefix pre' s' else None
  | String _ _, EmptyString => None
  end.

Definition digit (c : ascii) : option (Decimal.uint -> Decimal.uint) :=
  (if Ascii.eqb c "0" then Some Decimal.D0
   else if Ascii.eqb c "1" then Some Decimal.D1
   else if Ascii.eqb c "2" then Some Decimal.D2
   else if Ascii.eqb c "3" then Some Decimal.D3
   else if Ascii.eqb c "4" then Some Decimal.D4
   else if Ascii.eqb c "5" then Some Decimal.D5
   else if Ascii.eqb c "6" then Some Decimal.D6
   else if Ascii.eqb c "7" then Some Decimal.D7
   else if Ascii.eqb c "8" then Some Decimal.D8
   else if Ascii.eqb c "9" then Some Decimal.D9
   else None)%char.

(** The decimal digits of [s] up to the extension [ext], which must end
    the string. *)
Fixpoint digits_before (ext s : string) : option Decimal.uint :=
  if String.eqb s ext then Some Decimal.Nil
  else match s with
       | EmptyString => None
       | String c s' =>
           match digit c, digits_before ext s' with
           | Some d, Some u => Some (d u)
           | _, _ => None
           end
       end.

End Py.

Import Py.


(* ===================================================================== *)
(** * The filesystem                                                      *)
(* ===================================================================== *)

Module Fs.

(** A path is its list of components below the working directory, so
    [Path(d) / "input"] is [d ++ ["input"]]; the empty path is the working
    directory itself. *)
Abbreviation path := (list string).

(** [str(path)]; the working directory itself prints as a dot. *)
Definition str (p : path) : string :=
  match p with
  | [] => "."
  | _ => String.concat "/" p
  end.

Inductive entry (C : Type) : Type :=
| File (c : C)
| Dir.
Arguments File {C} c.
Arguments Dir {C}.

Section Ops.
Context {C : Type}.
Abbreviation fs := (gmap path (entry C)).

Definition stat (t : fs) (p : path) : option (entry C) :=
  match p with
  | [] => Some Dir
  | _ => t !! p
  end.

(** [Path.exists()] *)
Definition exists_ (t : fs) (p : path) : bool :=
  match stat t p with
  | Some _ => true
  | None => false
  end.

(** [Path.mkdir(parents=True, exist_ok=True)]: every missing ancestor
    and the directory itself are created; a regular file in the way
    raises. *)
Fixpoint mkdir_from (pre rest : path) (t : fs) : result fs :=
  match rest with
  | [] => Ok t
  | c :: rest' =>
      let p := pre ++ [c] in
      match t !! p with
      | Some (File _) =>
          Raise (Exc (match rest' with
                      | [] => FileExistsError
                      | _ => NotADirectoryError
                      end))
      | Some Dir => mkdir_from p rest' t
      | None => mkdir_from p rest' (<[p := Dir]> t)
      end
  end.

Definition mkdir_parents (p : path) (t : fs) : result fs :=
  mkdir_from [] p t.

(** [child_name p k = Some n] when [k] is the entry named [n] directly
    inside [p]. *)
Fixpoint child_name (p k : path) : option string :=
  match p, k with
  | [], [n] => Some n
  | x :: p', y :: k' => if decide (x = y) then child_name p' k' else None
  | _, _ => None
  end.

(** [Path.iterdir()]: the names in a directory, in the order the
    system lists them. *)
Definition iterdir (t : fs) (p : path) : result (list string) :=
  match stat t p with
  | None => Raise (Exc FileNotFoundError)
  | Some (File _) => Raise (Exc NotADirectoryError)
  | Some Dir => Ok (omap (fun kv => child_name p kv.1) (map_to_list t))
  end.

(** Opening [p] for writing and storing [c]: needs the parent to be a
    directory and [p] not to be one. *)
Definition write (t : fs) (p : path) (c : C) : result fs :=
  match p with
  | [] => Raise (Exc IsADirectoryError)
  | _ =>
      match stat t (removelast p), t !! p with
      | None, _ => Raise (Exc FileNotFoundError)
      | Some (File _), _ => Raise (Exc NotADirectoryError)
      | Some Dir, Some Dir => Raise (Exc IsADirectoryError)
      | Some Dir, _ => Ok (<[p := File c]> t)
      end
  end.

(** [shutil.copy2(src, dst_dir)]: [dst_dir] is an existing directory, so
    the copy lands in [dst_dir / src.name]. *)
Definition copy2_into (t : fs) (src : path) (name : string) (dst_dir : path)
  : result fs :=
  match stat t src with
  | None => Raise (Exc FileNotFoundError)
  | Some Dir => Raise (Exc IsADirectoryError)
  | Some (File c) => write t (dst_dir ++ [name]) c
  end.

End Ops.

End Fs.

Import Fs.

(* ===================================================================== *)
(** * OpenCV and numpy arrays                                             *)
(* ===================================================================== *)

Module Cv.

(** A two-dimensional array: its shape and its element at (row, column).
    An image holds 8-bit B, G, R triples; a mask holds booleans. *)
Record ndarray (A : Type) : Type := Ndarray {
  rows : Z;
  cols : Z;
  at_ : Z -> Z -> A
}.
Arguments Ndarray {A} rows cols at_.
Arguments rows {A} _.
Arguments cols {A} _.
Arguments at_ {A} _ _ _.

Definition pixel : Type := Z * Z * Z.
Definition black : pixel := (0, 0, 0).

Definition image : Type := ndarray pixel.
Definition mask : Type := ndarray bool.

(** An interpolation kernel: the value of the resized array at a position,
    from the source array and the target width and height. *)
Definition kernel (A : Type) : Type := ndarray A -> Z -> Z -> Z -> Z -> A.

(** [cv2.resize(src, (w, h))] for a size OpenCV takes: the result has
    [h] rows and [w] columns; an empty source or target size is an
    OpenCV error. *)
Definition resize {A} (interp : kernel A) (src : ndarray A) (dsize : Z * Z)
  : result (ndarray A) :=
  let '(w, h) := dsize in
  if (0 <? w) && (0 <? h) && (0 <? rows src) && (0 <? cols src)
  then Ok (Ndarray h w (interp src w h))
  else Raise (Exc cv2_error).

(** Whether a Python [int] converts to the C [int] of a [cv::Size]. *)
Definition fits_int (n : Z) : bool := (- 2 ^ 31 <=? n) && (n <? 2 ^ 31).

(** The largest width and height the JPEG encoder takes. *)
Definition jpeg_max_dimension : Z := 65500.

(** Whether [cv2.imwrite] can encode an array as a JPEG file. *)
Definition encodable {A} (a : ndarray A) : bool :=
  (0 <? rows a) && (rows a <=? jpeg_max_dimension)
  && (0 <? cols a) && (cols a <=? jpeg_max_dimension).

(** [np.zeros_like(img)] *)
Definition zeros_like (img : image) : image :=
  Ndarray (rows img) (cols img) (fun _ _ => black).

End Cv.

Import Cv.

(* ===================================================================== *)
(** * Training/extract_frames.py                                          *)
(* ===================================================================== *)

Module ExtractFrames.

(** An opened source as [cv2.VideoCapture] presents it: the properties
    that [cap.get] reports (after [int(...)]) and the frames that
    successive [cap.read()] calls deliver before the first
    [ret = False]. *)
Record video : Type := Video {
  frame_count : Z;
  frame_width : Z;
  frame_height : Z;
  frames : list image
}.

Inductive content : Type :=
| VideoFile (v : video)
| JpegFile (quality : Z) (img : image)
| OtherFile (data : string).

(** The state the function acts on: the filesystem, the [cv2.imwrite]
    calls made so far (oldest first) and the number of frames decoded. *)
Record world : Type := World {
  fs : gmap path (entry content);
  emitted : list (path * image);
  decoded : Z
}.

(** OpenCV as the sampler meets it.  The library is outside the
    repository, and what it opens or refuses is not decided by the
    script. *)
Record opencv : Type := OpenCV {
  (** [cv2.VideoCapture(path)] on a filesystem: the source it opens, or
      [None] when [cap.isOpened()] is false.  The path need not name a
      file of the tree: OpenCV also opens image sequences given by a
      pattern, URLs and pipelines. *)
  cv_open : gmap path (entry content) -> path -> option video;
  (** Interpolation used by [cv2.resize] (bilinear by default). *)
  cv_interp : kernel pixel;
  (** Whether OpenCV carries out the resize of an image to a size that
      fits: it does not when it cannot allocate the result. *)
  cv_resizes : image -> Z * Z -> bool
}.

Definition frame_name (saved_count : Z) : string :=
  "frame_" +:+ format_05d saved_count +:+ ".jpg".

(** The number a frame file name carries between [frame_] and [.jpg]
    (leading zeros allowed). *)
Definition frame_number (name : string) : option N :=
  match strip_prefix "frame_" name with
  | Some rest => N.of_uint <$> digits_before ".jpg" rest
  | None => None
  end.

(** [ceil(T / k)], the number of multiples of [k] among [0 .. T-1]. *)
Definition cdiv (T k : Z) : Z := (T + k - 1) / k.

(** How many frames a run from [saved_count] may still emit: the check
    [saved_count >= max_frames] follows an emission, so at least one. *)
Definition budget (max_frames : option Z) (saved_count m : Z) : Z :=
  if truthy max_frames
  then Z.min m (Z.max 1 (default 0 max_frames - saved_count))
  else m.

(** [h] is an integer nearest to the exact quotient [num / den]. *)
Definition rounds_to (h num den : Z) : Prop :=
  2 * Z.abs (h * den - num) <= Z.abs den.

Section Sampler.
Variable cv2 : opencv.

(** [images_path.mkdir(parents=True, exist_ok=True)] *)
Definition mkdir (p : path) : M world unit := fun w =>
  match mkdir_parents p (fs w) with
  | Ok t => (Ok tt, World t (emitted w) (decoded w))
  | Raise r => (Raise r, w)
  end.

(** [cv2.VideoCapture(video_path)] with [cap.isOpened()]: [None] when
    OpenCV opens nothing for the path. *)
Definition VideoCapture (p : path) : M world (option video) :=
  gets (fun w => cv_open cv2 (fs w) p).

(** One successful [cap.read()]. *)
Definition read_tick : M world unit :=
  modify (fun w => World (fs w) (emitted w) (decoded w + 1)).

(** The tree after [cv2.imwrite(path, frame, ...)]: the file holds the
    JPEG when the path can be opened for writing and the encoder takes
    the frame; when the encoder refuses it (a side above 65500), the
    file it had opened is removed again; a path that cannot be opened
    leaves the tree as it was. *)
Definition stored (t : gmap path (entry content)) (p : path)
    (frame : image) : gmap path (entry content) :=
  match write t p (JpegFile 95 frame) with
  | Ok t' => if encodable frame then t' else delete p t
  | Raise _ => t
  end.

(** [cv2.imwrite(path, frame, [cv2.IMWRITE_JPEG_QUALITY, 95])]; its
    boolean result is ignored by the caller, so a failed write is
    silent.  The frames are those [cap.read()] delivered with
    [ret = True] or their resized images, never empty arrays. *)
Definition imwrite (p : path) (frame : image) : M world unit :=
  modify (fun w =>
    World (stored (fs w) p frame)
          (emitted w ++ [(p, frame)])
          (decoded w)).

(** Lines 73-74: [new_height = int(resize_width * (height / width))]. *)
Definition new_height (resize_width width height : Z) : result Z :=
  match truediv height width with
  | Raise r => Raise r
  | Ok aspect_ratio =>
      match int_mul_float resize_width aspect_ratio with
      | Raise r => Raise r
      | Ok x => int_of_float x
      end
  end.

(** Line 75, [cv2.resize(frame, (resize_width, new_height))]: the two
    Python [int]s must fit C [int]s, and OpenCV must carry the resize
    out. *)
Definition cv2_resize (frame : image) (dsize : Z * Z) : result image :=
  if fits_int dsize.1 && fits_int dsize.2 && cv_resizes cv2 frame dsize
  then resize (cv_interp cv2) frame dsize
  else Raise (Exc cv2_error).

(** Lines 72-75. *)
Definition maybe_resize (resize_width : option Z) (width height : Z)
    (frame : image) : result image :=
  match resize_width with
  | Some rw =>
      if truthy resize_width then
        match new_height rw width height with
        | Raise r => Raise r
        | Ok nh => cv2_resize frame (rw, nh)
        end
      else Ok frame
  | None => Ok frame
  end.

(** Whether lines 72-75 go through for a frame. *)
Definition resizable (resize_width : option Z) (width height : Z)
    (frame : image) : bool :=
  match maybe_resize resize_width width height frame with
  | Ok _ => true
  | Raise _ => false
  end.

(** Lines 65-90, the [while True] loop, by recursion on the frames the
    decoder still has; it returns the final [saved_count]. *)
Fixpoint read_loop (images_path : path) (frame_interval : Z)
    (max_frames resize_width : option Z) (width height : Z)
    (stream : list image) (frame_idx saved_count : Z)
  : M world Z :=
  match stream with
  | [] => mret saved_count
  | frame :: rest =>
      read_tick;;
      r ← lift (mod_ frame_idx frame_interval);
      if r =? 0 then
        frame' ← lift (maybe_resize resize_width width height frame);
        imwrite (images_path ++ [frame_name saved_count]) frame';;
        let saved_count := saved_count + 1 in
        if truthy max_frames && (default 0 max_frames <=? saved_count)
        then mret saved_count
        else read_loop images_path frame_interval max_frames
               resize_width width height rest (frame_idx + 1) saved_count
      else read_loop images_path frame_interval max_frames
             resize_width width height rest (frame_idx + 1) saved_count
  end.

(** Lines 13-99.  The console output is left out except for the
    arithmetic it performs ([total_frames // frame_interval] raises
    for a zero interval). *)
Definition extract_frames (video_path output_dir : path)
    (frame_interval : Z) (max_frames resize_width : option Z)
  : M world path :=
  let output_path := output_dir in
  let images_path := output_path ++ ["input"] in
  mkdir images_path;;
  cap ← VideoCapture video_path;
  match cap with
  | None => sys_exit 1
  | Some v =>
      let total_frames := frame_count v in
      let width := frame_width v in
      let height := frame_height v in
      expected_frames ← lift (floordiv total_frames frame_interval);
      let expected_frames :=
        if truthy max_frames
        then Z.min expected_frames (default 0 max_frames)
        else expected_frames in
      saved_count ← read_loop images_path frame_interval max_frames
                       resize_width width height (frames v) 0 0;
      mret images_path
  end.

(** A call on a filesystem [t], with nothing written or decoded yet. *)
Definition run (t : gmap path (entry content))
    (video_path output_dir : path) (frame_interval : Z)
    (max_frames resize_width : option Z) : result path * world :=
  extract_frames video_path output_dir frame_interval max_frames
    resize_width (World t [] 0).

End Sampler.

(** ** Sample data *)

Definition solid (h w : Z) (v : Z) : image :=
  Ndarray h w (fun _ _ => (v, v, v)).

(** Nearest-neighbour sampling, a stand-in for the interpolation. *)
Definition nearest : kernel pixel := fun src w h r c =>
  at_ src (r * rows src / h) (c * cols src / w).

Definition clip (n : nat) (h w : Z) : video :=
  Video (Z.of_nat n) w h (map (fun i => solid h w (Z.of_nat i)) (seq 0 n)).

Definition disk (v : video) : gmap path (entry content) :=
  {[ ["clip.mp4"] := File (VideoFile v) ]}.

(** A decoder that opens the video files of the tree and nothing
    else. *)
Definition file_capture (t : gmap path (entry content)) (p : path)
  : option video :=
  match t !! p with
  | Some (File (VideoFile v)) => Some v
  | _ => None
  end.

(** A stand-in for OpenCV on a machine with room for every image whose
    sides fit. *)
Definition stub_cv2 : opencv :=
  OpenCV file_capture nearest (fun _ _ => true).

End ExtractFrames.


(* ===================================================================== *)
(** * Training/Scripts/run_colmap.py                                      *)
(* ===================================================================== *)

Module RunColmap.

Section Invoker.
(** What files hold is irrelevant here: they are only copied. *)
Context {C : Type}.
Local Abbreviation fs := (gmap path (entry C)).

(** [subprocess.run(cmd, capture_output=False)]: the external program
    does what it likes to the filesystem and hands back its return
    code, or the call raises (no such executable). *)
Variable subprocess_run : list string -> fs -> result Z * fs.

(** Lines 13-25. *)
Definition run_command (cmd : list string) (desc : string) : M fs bool :=
  fun t =>
    match subprocess_run cmd t with
    | (Ok returncode, t') =>
        (Ok (if negb (returncode =? 0) then false else true), t')
    | (Raise r, t') => (Raise r, t')
    end.

Definition mkdir (p : path) : M fs unit := fun t =>
  match mkdir_parents p t with
  | Ok t' => (Ok tt, t')
  | Raise r => (Raise r, t)
  end.

Definition listdir (p : path) : M fs (list string) :=
  fun t => (iterdir t p, t).

(** [for f in src.iterdir(): shutil.copy2(f, dst)], over the names the
    directory listing gave. *)
Fixpoint copy_each (src dst : path) (names : list string) : M fs unit :=
  match names with
  | [] => mret tt
  | name :: rest =>
      (fun t => match copy2_into t (src ++ [name]) name dst with
                | Ok t' => (Ok tt, t')
                | Raise r => (Raise r, t)
                end);;
      copy_each src dst rest
  end.

Definition feature_extractor_cmd (colmap_path : string)
    (database_path images_path : path) (camera_model : string)
  : list string :=
  [colmap_path; "feature_extractor";
   "--database_path"; str database_path;
   "--image_path"; str images_path;
   "--ImageReader.single_camera"; "1";
   "--ImageReader.camera_model"; camera_model].

Definition exhaustive_matcher_cmd (colmap_path : string)
    (database_path : path) : list string :=
  [colmap_path; "exhaustive_matcher";
   "--database_path"; str database_path].

Definition mapper_cmd (colmap_path : string)
    (database_path images_path distorted_path : path) : list string :=
  [colmap_path; "mapper";
   "--database_path"; str database_path;
   "--image_path"; str images_path;
   "--output_path"; str distorted_path;
   "--Mapper.ba_global_function_tolerance"; "0.000001";
   "--Mapper.ba_local_num_images"; "6";
   "--Mapper.ba_global_points_ratio"; "1.1";
   "--Mapper.ba_global_max_num_iterations"; "50";
   "--Mapper.ba_global_max_refinements"; "3";
   "--Mapper.init_min_num_inliers"; "50";
   "--Mapper.init_max_error"; "4.0";
   "--Mapper.tri_min_angle"; "1.5";
   "--Mapper.tri_ignore_two_view_tracks"; "0"].

Definition image_undistorter_cmd (colmap_path : string)
    (images_path distorted_path data_path : path) : list string :=
  [colmap_path; "image_undistorter";
   "--image_path"; str images_path;
   "--input_path"; str (distorted_path ++ ["0"]);
   "--output_path"; str data_path;
   "--output_type"; "COLMAP"].

(** Lines 44-142: the input check and the four COLMAP steps, each fatal
    on a non-zero return code.  Counting the images (lines 61-65) only
    prints and is left out; [gpu_flag] is computed but passed to no
    command. *)
Definition sfm_steps (data_dir : path) (colmap_path : string)
    (use_gpu : bool) (camera_model : string) : M fs unit :=
  let data_path := data_dir in
  let images_path := data_path ++ ["input"] in
  found ← gets (fun t => exists_ t images_path);
  if negb found then sys_exit 1 else
  let distorted_path := data_path ++ ["distorted"; "sparse"] in
  mkdir distorted_path;;
  let database_path := data_path ++ ["distorted"; "database.db"] in
  let gpu_flag := if use_gpu then "1" else "0" in
  ok ← run_command
         (feature_extractor_cmd colmap_path database_path images_path
            camera_model) "feature extraction";
  if negb ok then sys_exit 1 else
  ok ← run_command (exhaustive_matcher_cmd colmap_path database_path)
         "feature matching";
  if negb ok then sys_exit 1 else
  ok ← run_command
         (mapper_cmd colmap_path database_path images_path distorted_path)
         "sparse reconstruction";
  if negb ok then sys_exit 1 else
  ok ← run_command
         (image_undistorter_cmd colmap_path images_path distorted_path
            data_path) "image undistortion";
  if negb ok then sys_exit 1 else
  mret tt.

(** Lines 144-163: the check of the result. *)
Definition check_result (data_dir : path) : M fs unit :=
  let data_path := data_dir in
  let distorted_path := data_path ++ ["distorted"; "sparse"] in
  let sparse_path := data_path ++ ["sparse"; "0"] in
  found ← gets (fun t : fs => exists_ t sparse_path);
  if found : bool then mret tt
  else
    mkdir sparse_path;;
    let src_sparse := distorted_path ++ ["0"] in
    found_src ← gets (fun t : fs => exists_ t src_sparse);
    if found_src : bool then
      names ← listdir src_sparse;
      copy_each src_sparse sparse_path names
    else mret tt.

(** Lines 28-166. *)
Definition run_colmap_preprocessing (data_dir : path)
    (colmap_path : string) (use_gpu : bool) (camera_model : string)
  : M fs unit :=
  sfm_steps data_dir colmap_path use_gpu camera_model;;
  check_result data_dir.

End Invoker.

(** ** Sample tools *)

(** A program that exits 0 and touches nothing. *)
Definition tool_noop : list string -> gmap path (entry string)
                       -> result Z * gmap path (entry string) :=
  fun _ t => (Ok 0, t).

(** A stand-in for COLMAP whose mapper writes a model into
    [distorted/sparse/0] and whose other steps leave the tree alone. *)
Definition tool_mapper_only : list string -> gmap path (entry string)
                              -> result Z * gmap path (entry string) :=
  fun cmd t =>
    match cmd with
    | _ :: "mapper" :: _ =>
        (Ok 0,
         <[ ["data"; "distorted"; "sparse"; "0"; "points3D.bin"]
              := File "points" ]>
           (<[ ["data"; "distorted"; "sparse"; "0"; "cameras.bin"]
                 := File "cameras" ]>
              (<[ ["data"; "distorted"; "sparse"; "0"] := Dir ]> t)))
    | _ => (Ok 0, t)
    end.

Definition workspace : gmap path (entry string) :=
  {[ ["data"] := Dir; ["data"; "input"] := Dir;
     ["data"; "input"; "frame_00000.jpg"] := File "jpeg" ]}.

End RunColmap.


(* ===================================================================== *)
(** * Training/Scripts/auto_mask_bridge.py                                *)
(* ===================================================================== *)

Module AutoMaskBridge.

(** What a run leaves behind, in order: the console lines of the loop and
    the images handed to [cv2.imwrite]. *)
Inductive event : Type :=
| Print_no_detection (i total : nat) (name : string)   (* line 46 *)
| Print_processed (i total : nat) (name : string)      (* line 76 *)
| Print_error (name : string) (e : exception)          (* line 79 *)
| Imwrite (p : path) (img : image).                    (* lines 48, 75 *)

Definition emit (e : event) : M (list event) unit :=
  modify (fun log => log ++ [e]).

(** A call into a library that returns or raises an [Exception]. *)
Definition call {A} (r : exception + A) : M (list event) A :=
  lift (match r with
        | inl e => Raise (Exc e)
        | inr a => Ok a
        end).

(** [try: body except Exception as e: handler(e)]; a [SystemExit] is not
    an [Exception] and passes through. *)
Definition try_except {S} (body : M S unit) (handler : exception -> M S unit)
  : M S unit :=
  fun s => match body s with
           | (Ok tt, s') => (Ok tt, s')
           | (Raise (Exc e), s') => handler e s'
           | (Raise (SystemExit code), s') => (Raise (SystemExit code), s')
           end.

(** ** Selecting the files (line 31) *)

Fixpoint rfind_dot (s : string) (i : nat) (found : option nat)
  : option nat :=
  match s with
  | EmptyString => found
  | String c s' =>
      rfind_dot s' (S i) (if Ascii.eqb c "."%char then Some i else found)
  end.

(** [Path.suffix]: the name from its last dot on, when that dot is
    neither the first nor the last character. *)
Definition suffix (name : string) : string :=
  match rfind_dot name 0 None with
  | Some i =>
      if (0 <? i)%nat && (i <? String.length name - 1)%nat
      then String.substring i (String.length name - i) name
      else ""
  | None => ""
  end.

Definition lower_ascii (c : ascii) : ascii :=
  let n := nat_of_ascii c in
  if (65 <=? n)%nat && (n <=? 90)%nat then ascii_of_nat (n + 32) else c.

(** [str.lower()], on ASCII letters. *)
Fixpoint lower (s : string) : string :=
  match s with
  | EmptyString => EmptyString
  | String c s' => String (lower_ascii c) (lower s')
  end.

Definition is_image_name (name : string) : bool :=
  bool_decide (lower (suffix name) ∈ [".jpg"; ".png"; ".jpeg"]).

(** [sorted([f for f in input_path.iterdir() if ...])]: the entries of
    one directory compare by name. *)
Definition select_files (listing : list string) : list string :=
  merge_sort String.le (filter (fun n => is_image_name n = true) listing).

(** ** Masks *)

(** [np.zeros(img.shape[:2], dtype=bool)] *)
Definition zeros_mask (img : image) : mask :=
  Ndarray (rows img) (cols img) (fun _ _ => false).

(** [combined_mask |= m], for arrays of one shape. *)
Definition ior (combined_mask m : mask) : mask :=
  Ndarray (rows combined_mask) (cols combined_mask)
    (fun r c => at_ combined_mask r c || at_ m r c).

(** [img[~combined_mask] = [0, 0, 0]] *)
Definition blacken_outside (img : image) (combined_mask : mask) : image :=
  Ndarray (rows img) (cols img)
    (fun r c => if negb (at_ combined_mask r c) then black else at_ img r c).

Definition same_shape (a b : mask) : bool :=
  (rows a =? rows b) && (cols a =? cols b).

Definition nonempty {A} (a : ndarray A) : bool :=
  (0 <? rows a) && (0 <? cols a).

Section Bridge.
(** A detected box; only the number of boxes matters to the script. *)
Context {box : Type}.

(** [det_model.predict(str(file), conf=0.05)[0].boxes] for the model
    set to the prompt. *)
Variable predict : string -> path -> exception + list box.
(** [cv2.imread(str(file))]; [None] for a file it cannot read. *)
Variable imread : path -> option image.
(** [seg_model(str(file), bboxes=bboxes)[0].masks]: [None], or the
    masks in [masks.data], already as boolean arrays. *)
Variable sam : path -> list box -> exception + option (list mask).
(** Interpolation (and the casts around it) of line 66. *)
Variable interp : kernel bool.

(** Lines 63-66: the mask brought to the shape of [combined_mask]. *)
Definition fit (combined_mask m : mask) : result mask :=
  if negb (same_shape m combined_mask)
  then resize interp m (cols combined_mask, rows combined_mask)
  else Ok m.

(** Lines 62-67. *)
Fixpoint union_masks (masks : list mask) (combined_mask : mask)
  : result mask :=
  match masks with
  | [] => Ok combined_mask
  | m :: rest =>
      match fit combined_mask m with
      | Ok m' => union_masks rest (ior combined_mask m')
      | Raise r => Raise r
      end
  end.

(** [file.name] *)
Definition name (file : path) : string := default "" (last file).

(** Lines 38-76, the body of the [try]; [continue] is a normal return.
    [i] counts from 0, the lines print [i + 1]. *)
Definition process_one (prompt : string) (output_dir : path)
    (i total : nat) (file : path) : M (list event) unit :=
  boxes ← call (predict prompt file);
  match imread file with
  | None => mret tt
  | Some img =>
      if (length boxes =? 0)%nat then
        emit (Print_no_detection (i + 1) total (name file));;
        let black_img := zeros_like img in
        emit (Imwrite (output_dir ++ [name file]) black_img)
      else
        let bboxes := boxes in
        masks ← call (sam file bboxes);
        let combined_mask := zeros_mask img in
        combined_mask ← lift (match masks with
                              | Some data => union_masks data combined_mask
                              | None => Ok combined_mask
                              end);
        let img := blacken_outside img combined_mask in
        emit (Imwrite (output_dir ++ [name file]) img);;
        emit (Print_processed (i + 1) total (name file))
  end.

(** Lines 36-79. *)
Fixpoint for_files (prompt : string) (output_dir : path)
    (total i : nat) (files : list path) : M (list event) unit :=
  match files with
  | [] => mret tt
  | file :: rest =>
      try_except (process_one prompt output_dir i total file)
        (fun e => emit (Print_error (name file) e));;
      for_files prompt output_dir total (S i) rest
  end.

(** Lines 9-81, from the directory listing on; loading the models and
    creating the output directory (lines 10-27) precede the loop and
    are not part of it.  [listing] is what [input_path.iterdir()]
    yields, as names. *)
Definition process_images (listing : list string)
    (input_dir output_dir : path) (prompt : string)
  : M (list event) unit :=
  let files := (fun n => input_dir ++ [n]) <$> select_files listing in
  for_files prompt output_dir (length files) 0 files.

(** What one turn of the loop adds to the log: the events of the body
    and, when the body raised an [Exception], the line of the handler. *)
Definition events_of (prompt : string) (output_dir : path)
    (total i : nat) (file : path) : list event :=
  (try_except (process_one prompt output_dir i total file)
     (fun e => emit (Print_error (name file) e)) []).2.

(** ** The same in the words of the specification *)

(** A mask as it enters the union: resized when its shape is not the
    image's. *)
Definition fitted (img : image) (m : mask) : mask :=
  if same_shape m (zeros_mask img) then m
  else Ndarray (rows img) (cols img) (interp m (cols img) (rows img)).

(** The unioned mask at a position: the OR over the fitted masks. *)
Definition unioned (img : image) (masks : list mask) (r c : Z) : bool :=
  existsb (fun m => at_ (fitted img m) r c) masks.

End Bridge.

(** ** Sample data *)

Definition gradient (h w : Z) : image :=
  Ndarray h w (fun r c => (r, c, r + c)).

Definition left_half (h w : Z) : mask :=
  Ndarray h w (fun r c => c <? w / 2).

Definition nearest_bool : kernel bool := fun src w h r c =>
  at_ src (r * rows src / h) (c * cols src / w).

(** A detector that finds one box in [b.jpg] and fails on [c.png]. *)
Definition sample_predict (prompt : string) (file : path)
  : exception + list nat :=
  if decide (name file = "c.png") then inl (RuntimeError "model failed")
  else if decide (name file = "b.jpg") then inr [7%nat]
  else inr [].

(** Every file decodes, except [d.jpeg]. *)
Definition sample_imread (file : path) : option image :=
  if decide (name file = "d.jpeg") then None else Some (gradient 4 6).

Definition sample_sam (file : path) (boxes : list nat)
  : exception + option (list mask) :=
  inr (Some [left_half 4 6; left_half 2 3]).

(** A detector that finds a box everywhere, the unreadable file
    included. *)
Definition eager_predict (prompt : string) (file : path)
  : exception + list nat := inr [7%nat].

End AutoMaskBridge.


(* ===================================================================== *)
(** * Training/Scripts/train_gaussian.py                                  *)
(* ===================================================================== *)

Module TrainGaussian.

(** [str(n)] for an [int]. *)
Definition str_int (n : Z) : string :=
if n <? 0 then "-" +:+ decimal (Z.to_N (- n)) else decimal (Z.to_N n).

(** The console lines that tell the user something about the run. *)
Inductive line : Type :=
| Clone_failed                               (* line 33 *)
| Clone_done                                 (* line 36 *)
| Path_exists (p : path)                     (* line 220 *)
| Repo_not_found                             (* lines 229-230 *)
| Script_not_found (p : path)                (* line 104 *)
| Training_failed (returncode : Z)           (* line 137 *)
| Ply_created (p : path) (st_size : Z)       (* lines 150-152 *)
| Final_ply (p : path).                      (* line 155 *)

(** The parsed command line of [main]. *)
Record args : Type := Args {
source_path : path;
gs_path : path;
output_path : option path;
iterations : Z;
resolution : Z;
sh_degree : Z;
setup : bool;
clone : bool
}.

Section Training.
Context {C : Type}.

(** The filesystem and what was printed. *)
Record world : Type := World {
tfs : gmap path (entry C);
printed : list line
}.

(** [subprocess.run(cmd)] and [subprocess.run(cmd, cwd=...)]: the program
acts on the filesystem and returns its code, or the call raises. *)
Variable subprocess_run :
option path -> list string -> gmap path (entry C)
-> result Z * gmap path (entry C).
(** [sys.executable] *)
Variable executable : string.
(** [p.stat().st_size] of an entry. *)
Variable st_size : entry C -> Z.

Definition print (l : line) : M world unit :=
modify (fun w => World (tfs w) (printed w ++ [l])).

Definition run_process (cwd : option path) (cmd : list string)
: M world Z :=
fun w => match subprocess_run cwd cmd (tfs w) with
       | (r, t') => (r, World t' (printed w))
       end.

(** [Path.exists()] and [list(Path.iterdir())] on the current tree. *)
Definition path_exists (p : path) : M world bool :=
gets (fun w => exists_ (tfs w) p).

Definition listdir (p : path) : M world (list string) :=
fun w => (iterdir (tfs w) p, w).

(** Lines 13-16. *)
Definition check_gaussian_splatting_repo (gs_path : path) : M world bool :=
let gs_train_path := gs_path ++ ["train.py"] in
path_exists gs_train_path.

Definition clone_cmd (target_path : path) : list string :=
["git"; "clone";
"https://github.com/graphdeco-inria/gaussian-splatting.git";
"--recursive"; str target_path].

(** Lines 19-37. *)
Definition clone_gaussian_splatting (target_path : path) : M world bool :=
returncode ← run_process None (clone_cmd target_path);
if negb (returncode =? 0) then
print Clone_failed;; mret false
else
print Clone_done;; mret true.

Definition pip_install_cmd (p : path) : list string :=
[executable; "-m"; "pip"; "install"; str p].

(** Lines 40-64; the return codes of the three commands are not looked
at. *)
Definition setup_gaussian_splatting (gs_path : path) : M world unit :=
let submodules_path := gs_path ++ ["submodules"] in
found ← path_exists submodules_path;
missing ← (if negb found then mret true
         else names ← listdir submodules_path;
              mret (match names with [] => true | _ => false end));
(if missing : bool then
 run_process (Some gs_path)
   ["git"; "submodule"; "update"; "--init"; "--recursive"];;
 mret tt
else mret tt);;
let diff_raster_path := submodules_path ++ ["diff-gaussian-rasterization"] in
found ← path_exists diff_raster_path;
(if found : bool then
 run_process None (pip_install_cmd diff_raster_path);; mret tt
else mret tt);;
let simple_knn_path := submodules_path ++ ["simple-knn"] in
found ← path_exists simple_knn_path;
(if found : bool then
 run_process None (pip_install_cmd simple_knn_path);; mret tt
else mret tt).

Definition ply_path (output_path : path) (iter_num : Z) : path :=
output_path ++ ["point_cloud"; "iteration_" +:+ str_int iter_num;
              "point_cloud.ply"].

(** Lines 119-127. *)
Definition train_cmd (train_script source_path output_path : path)
(iterations : Z) (save_iterations : list Z)
(resolution sh_degree : Z) : list string :=
[executable; str train_script;
"-s"; str source_path;
"-m"; str output_path;
"--iterations"; str_int iterations;
"--save_iterations"] ++ (str_int <$> save_iterations) ++
["-r"; str_int resolution;
"--sh_degree"; str_int sh_degree].

(** Lines 146-152: the checkpoints found are reported, the others passed
over. *)
Fixpoint report_plys (output_path : path) (save_iterations : list Z)
: M world unit :=
match save_iterations with
| [] => mret tt
| iter_num :: rest =>
  let p := ply_path output_path iter_num in
  (fun w => match stat (tfs w) p with
            | Some e => print (Ply_created p (st_size e)) w
            | None => (Ok tt, w)
            end);;
  report_plys output_path rest
end.

(** Lines 67-157.  Paths are taken as already resolved. *)
Definition run_training (source_path gs_path : path)
(output_path : option path) (iterations : Z)
(save_iterations : option (list Z)) (resolution sh_degree : Z)
: M world unit :=
let output_path :=
match output_path with
| None => source_path ++ ["output"]
| Some p => p
end in
let save_iterations :=
match save_iterations with
| None => [7000; 15000; 30000]
| Some l => l
end in
let train_script := gs_path ++ ["train.py"] in
found ← path_exists train_script;
if negb found then
print (Script_not_found train_script);; sys_exit 1
else
returncode ← run_process (Some gs_path)
               (train_cmd train_script source_path output_path
                  iterations save_iterations resolution sh_degree);
if negb (returncode =? 0) then
  print (Training_failed returncode);; sys_exit 1
else
  report_plys output_path save_iterations;;
  let final_ply := ply_path output_path iterations in
  print (Final_ply final_ply).

(** Lines 160-240, from the parsed arguments on. *)
Definition main (a : args) : M world unit :=
let gs_path := gs_path a in
found ← (if clone a then mret false
       else check_gaussian_splatting_repo gs_path);
(if clone a || negb found then
 there ← path_exists gs_path;
 if negb there then
   clone_gaussian_splatting gs_path;; mret tt
 else print (Path_exists gs_path)
else mret tt);;
if setup a then
setup_gaussian_splatting gs_path
else
found ← check_gaussian_splatting_repo gs_path;
if negb found then
  print Repo_not_found;; sys_exit 1
else
  run_training (source_path a) gs_path (output_path a) (iterations a)
    None (resolution a) (sh_degree a).

End Training.

End TrainGaussian.

(* ===================================================================== *)
(** * Training/run_full_pipeline.py                                       *)
(* ===================================================================== *)

Module FullPipeline.

(** The parsed command line of [main]. *)
Record args : Type := Args {
video : path;
output : path;
frame_interval : Z;
max_frames : Z;
resize_width : Z;
iterations : Z;
colmap_path : string;
gs_path : path;
skip_frames : bool;
skip_colmap : bool;
skip_training : bool
}.

(** What the three stages act on: the sampler's world (filesystem, emitted
  frames, decode count) and the lines the training stage prints. *)
Record world : Type := World {
sampler : ExtractFrames.world;
printed : list TrainGaussian.line
}.

(** A computation on a part [S] of the state [P], run inside [P]. *)
Definition zoom {P S A} (get : P -> S) (set : S -> P -> P) (m : M S A)
: M P A :=
fun p => match m (get p) with
         | (r, s) => (r, set s p)
         end.

Definition get_fs (w : world) : gmap path (entry ExtractFrames.content) :=
ExtractFrames.fs (sampler w).

Definition set_fs (t : gmap path (entry ExtractFrames.content)) (w : world)
: world :=
World (ExtractFrames.World t (ExtractFrames.emitted (sampler w))
         (ExtractFrames.decoded (sampler w)))
      (printed w).

Definition get_training (w : world)
: TrainGaussian.world (C := ExtractFrames.content) :=
TrainGaussian.World (get_fs w) (printed w).

Definition set_training
  (s : TrainGaussian.world (C := ExtractFrames.content)) (w : world)
: world :=
World (ExtractFrames.World (TrainGaussian.tfs s)
         (ExtractFrames.emitted (sampler w))
         (ExtractFrames.decoded (sampler w)))
      (TrainGaussian.printed s).

Section Pipeline.
Variable cv2 : ExtractFrames.opencv.
Variable subprocess_run :
option path -> list string -> gmap path (entry ExtractFrames.content)
-> result Z * gmap path (entry ExtractFrames.content).
Variable executable : string.
Variable st_size : entry ExtractFrames.content -> Z.
(** Whether [import name] goes through.  Python searches the directory
of the running script first; [run_full_pipeline.py] never adds to
[sys.path], so a module elsewhere is found only when the environment
puts its directory on the path. *)
Variable importable : string -> bool.

(** [from name import ...], at the place where the statement is
executed. *)
Definition import_ (name : string) : M world unit :=
if importable name then mret tt else raise (Exc ModuleNotFoundError).

(** Lines 94-106. *)
Definition stage_frames (a : args) : M world unit :=
if negb (skip_frames a) then
import_ "extract_frames";;
zoom sampler (fun s w => World s (printed w))
  (ExtractFrames.extract_frames cv2 (video a) (output a)
     (frame_interval a) (Some (max_frames a)) (Some (resize_width a)));;
mret tt
else mret tt.

(** Lines 111-121. *)
Definition stage_colmap (a : args) : M world unit :=
if negb (skip_colmap a) then
import_ "run_colmap";;
zoom get_fs set_fs
  (RunColmap.run_colmap_preprocessing (subprocess_run None) (output a)
     (colmap_path a) true "SIMPLE_RADIAL")
else mret tt.

(** Lines 126-145. *)
Definition stage_training (a : args) : M world unit :=
if negb (skip_training a) then
import_ "train_gaussian";;
zoom get_training set_training
  (let gs_path := gs_path a in
   found ← TrainGaussian.check_gaussian_splatting_repo gs_path;
   (if negb found then
      TrainGaussian.clone_gaussian_splatting subprocess_run gs_path;;
      TrainGaussian.setup_gaussian_splatting subprocess_run executable
        gs_path
    else mret tt);;
   TrainGaussian.run_training subprocess_run executable st_size
     (output a) gs_path None (iterations a) None (-1) 3)
else mret tt.

(** Lines 12-160, from the parsed arguments on; the closing lines only
print. *)
Definition main (a : args) : M world unit :=
stage_frames a;;
stage_colmap a;;
stage_training a.

End Pipeline.

End FullPipeline.

(* ===================================================================== *)
(** * More sample data                                                    *)
(* ===================================================================== *)

Module Samples.
Import ExtractFrames.

(** The sample disk after [data/input] was made. *)
Definition made_dirs : gmap path (entry content) :=
<[ ["data"; "input"] := Dir ]> (<[ ["data"] := Dir ]> (disk (clip 5 4 6))).

(** A stand-in for COLMAP whose matcher fails. *)
Definition tool_matcher_fails : list string -> gmap path (entry string)
                              -> result Z * gmap path (entry string) :=
fun cmd t =>
  match cmd with
  | _ :: "exhaustive_matcher" :: _ => (Ok 1, t)
  | _ => (Ok 0, t)
  end.

Definition workspace_dirs : gmap path (entry string) :=
<[ ["data"; "distorted"; "sparse"] := Dir ]>
  (<[ ["data"; "distorted"] := Dir ]> RunColmap.workspace).

(** A checkout of the training repository, beside a data directory. *)
Definition repo : gmap path (entry string) :=
{[ ["gs"] := Dir; ["gs"; "train.py"] := File "script" ]}.

(** A directory in the place of the repository, without [train.py]. *)
Definition bare_dir : gmap path (entry string) := {[ ["gs"] := Dir ]}.

Definition nothing : gmap path (entry string) := ∅.

Definition ply_7000 : path :=
["data"; "output"; "point_cloud"; "iteration_7000"; "point_cloud.ply"].

(** A training process that leaves the checkpoint of iteration 7000
  only. *)
Definition trainer : option path -> list string -> gmap path (entry string)
                   -> result Z * gmap path (entry string) :=
fun _ _ t => (Ok 0, <[ ply_7000 := File "ply" ]> t).

(** A process that fails and touches nothing. *)
Definition failing : option path -> list string -> gmap path (entry string)
                   -> result Z * gmap path (entry string) :=
fun _ _ t => (Ok 2, t).

Definition size_of (e : entry string) : Z :=
match e with
| File s => Z.of_nat (String.length s)
| Dir => 4096
end.

(** For the pipeline: a tool that succeeds and touches nothing. *)
Definition quiet : option path -> list string -> gmap path (entry content)
                 -> result Z * gmap path (entry content) :=
fun _ _ t => (Ok 0, t).

Definition size_of_content (e : entry content) : Z := 0.

(** The modules beside [run_full_pipeline.py] in the repository:
  [extract_frames.py] is in [Training/] with it, [run_colmap.py] and
  [train_gaussian.py] are in [Training/Scripts/]. *)
Definition beside_script (name : string) : bool :=
bool_decide (name = "extract_frames").

(** A module search path that also holds [Training/Scripts/]. *)
Definition with_scripts (name : string) : bool := true.

Definition pipeline_args (skip : bool) : FullPipeline.args :=
FullPipeline.Args ["missing.mp4"] ["data"] 10 300 1920 30000 "colmap"
  ["gs"] skip false false.

(** The same, on the sample clip, every second frame. *)
Definition clip_args : FullPipeline.args :=
FullPipeline.Args ["clip.mp4"] ["data"] 2 300 1920 30000 "colmap"
  ["gs"] false false false.



Definition fresh (t : gmap path (entry content)) : FullPipeline.world :=
FullPipeline.World (World t [] 0) [].

End Samples.

Module BridgeViews.
Import AutoMaskBridge.

(** The paths handed to [cv2.imwrite], in order. *)
Definition written (log : list event) : list path :=
omap (fun ev => match ev with
                | Imwrite p _ => Some p
                | _ => None
                end) log.

(** Whether a string holds no dot. *)
Fixpoint dotless (s : string) : bool :=
match s with
| EmptyString => true
| String c s' => negb (Ascii.eqb c "."%char) && dotless s'
end.

End BridgeViews.

(* ===================================================================== *)
(** * Facts about the runtime helpers                                     *)
(* ===================================================================== *)

Module PyFacts.

Lemma append_cons (x : ascii) (a b : string) :
  String x a +:+ b = String x (a +:+ b).
Proof. reflexivity. Qed.

Lemma append_nil (b : string) : "" +:+ b = b.
Proof. reflexivity. Qed.

Lemma append_assoc (a b c : string) : (a +:+ b) +:+ c = a +:+ (b +:+ c).
Proof.
  induction a as [|x a IH]; [done|]. by rewrite !append_cons, IH.
Qed.

Lemma length_append (a b : string) :
  String.length (a +:+ b) = (String.length a + String.length b)%nat.
Proof.
  induction a as [|x a IH]; [done|]. rewrite append_cons. simpl.
  by rewrite IH.
Qed.

Lemma strip_prefix_append (pre s : string) :
  strip_prefix pre (pre +:+ s) = Some s.
Proof.
  induction pre as [|x pre IH]; [done|].
  rewrite append_cons. simpl. by rewrite Ascii.eqb_refl.
Qed.

Lemma length_zeros k : String.length (zeros k) = k.
Proof. induction k as [|k IH]; simpl; [done|by rewrite IH]. Qed.

Lemma length_zfill width s :
  String.length (zfill width s) = Nat.max width (String.length s).
Proof. unfold zfill. rewrite length_append, length_zeros. lia. Qed.

Lemma digits_before_cons ext c s :
  digits_before ext (String c s) =
    if String.eqb (String c s) ext then Some Decimal.Nil
    else match digit c, digits_before ext s with
         | Some d, Some u => Some (d u)
         | _, _ => None
         end.
Proof. reflexivity. Qed.

(** Reading back the digits that [string_of_uint] printed. *)
Lemma digits_before_printed (u : Decimal.uint) :
  digits_before ".jpg" (NilEmpty.string_of_uint u +:+ ".jpg") = Some u.
Proof.
  induction u as [|u IH|u IH|u IH|u IH|u IH|u IH|u IH|u IH|u IH|u IH];
    [reflexivity|..];
    cbn [NilEmpty.string_of_uint]; rewrite append_cons;
    rewrite digits_before_cons, IH; reflexivity.
Qed.

(** Leading zeros are read as leading [D0] digits, which do not count. *)
Lemma digits_before_zeros k s :
  N.of_uint <$> digits_before ".jpg" (zeros k +:+ s)
  = N.of_uint <$> digits_before ".jpg" s.
Proof.
  induction k as [|k IH]; [done|].
  cbn [zeros]. rewrite append_cons, digits_before_cons.
  cbn [String.eqb Ascii.eqb Bool.eqb andb digit]. simpl.
  rewrite <- IH. by destruct (digits_before ".jpg" (zeros k +:+ s)).
Qed.

Lemma format_05d_nonneg (j : nat) :
  format_05d (Z.of_nat j) = zfill 5 (decimal (N.of_nat j)).
Proof.
  unfold format_05d. destruct (Z.ltb_spec (Z.of_nat j) 0) as [|_]; [lia|].
  by rewrite <- nat_N_Z, N2Z.id.
Qed.

(** [int(x)] drops the fractional part: for [x = (-1)^s * m * 2^e] the
    result has the sign of [x] and the largest integer magnitude not
    above [m * 2^e]. *)
Lemma int_of_float_truncates s m e r :
  int_of_float (S754_finite s m e) = Ok r ->
  r = (if s then - Z.abs r else Z.abs r)
  /\ (0 <= e -> Z.abs r = Z.pos m * 2 ^ e)
  /\ (e < 0 ->
      Z.abs r * 2 ^ (- e) <= Z.pos m < (Z.abs r + 1) * 2 ^ (- e)).
Proof.
  unfold int_of_float. intros [= <-].
  destruct (Z.leb_spec 0 e) as [He|He].
  - rewrite Z.shiftl_mul_pow2 by done.
    assert (0 < Z.pos m * 2 ^ e) by (apply Z.mul_pos_pos; lia).
    destruct s; (split; [lia|split; lia]).
  - rewrite Z.shiftr_div_pow2 by lia.
    assert (Hp : 0 < 2 ^ (- e)) by (apply Z.pow_pos_nonneg; lia).
    pose proof (Z.div_mod (Z.pos m) (2 ^ (- e)) ltac:(lia)) as Hdm.
    pose proof (Z.mod_pos_bound (Z.pos m) (2 ^ (- e)) Hp) as Hmb.
    assert (0 <= Z.pos m / 2 ^ (- e)) by (apply Z.div_pos; lia).
    destruct s; (split; [lia|split; [lia|intros _; nia]]).
Qed.

End PyFacts.

(* ===================================================================== *)
(** * Facts about the filesystem operations                               *)
(* ===================================================================== *)

Module FsFacts.

Section Mkdir.
Context {C : Type}.
Implicit Types (t : gmap path (entry C)) (p pre rest : path).

(** Creating directories leaves every existing entry as it was. *)
Lemma mkdir_from_preserves rest : forall pre t t' p e,
  mkdir_from pre rest t = Ok t' -> t !! p = Some e -> t' !! p = Some e.
Proof.
  induction rest as [|c rest IH]; intros pre t t' p e Hmk Hp; simpl in Hmk.
  - by inversion Hmk; subst.
  - destruct (t !! (pre ++ [c])) as [[x|]|] eqn:Hc; try discriminate.
    + eapply IH; eauto.
    + eapply IH; [exact Hmk|].
      rewrite lookup_insert_ne; [done|]. intros Heq; subst p. congruence.
Qed.

(** The directory asked for is there afterwards. *)
Lemma mkdir_from_dir rest : forall pre t t',
  mkdir_from pre rest t = Ok t' -> rest <> [] ->
  t' !! (pre ++ rest) = Some Dir.
Proof.
  induction rest as [|c rest IH]; intros pre t t' Hmk Hne; [done|].
  simpl in Hmk.
  assert (Hstep : forall t1, t1 !! (pre ++ [c]) = Some Dir ->
             mkdir_from (pre ++ [c]) rest t1 = Ok t' ->
             t' !! (pre ++ c :: rest) = Some Dir).
  { intros t1 H1 H2. destruct rest as [|c' rest'].
    - simpl in H2. by inversion H2; subst.
    - replace (pre ++ c :: c' :: rest') with ((pre ++ [c]) ++ c' :: rest')
        by (by rewrite <- app_assoc).
      eapply IH; [exact H2|done]. }
  destruct (t !! (pre ++ [c])) as [[x|]|] eqn:Hc; try discriminate.
  - by eapply Hstep.
  - eapply Hstep; [|exact Hmk]. by rewrite lookup_insert_eq.
Qed.

(** Only directories are added. *)
Lemma mkdir_from_file rest : forall pre t t' p c,
  mkdir_from pre rest t = Ok t' -> t' !! p = Some (File c) ->
  t !! p = Some (File c).
Proof.
  induction rest as [|x rest IH]; intros pre t t' p c Hmk Hp;
    simpl in Hmk.
  - by inversion Hmk; subst.
  - destruct (t !! (pre ++ [x])) as [[y|]|] eqn:Hc; try discriminate.
    + eapply IH; eauto.
    + pose proof (IH _ _ _ _ _ Hmk Hp) as Hq.
      rewrite lookup_insert in Hq. by case_decide.
Qed.

Lemma mkdir_parents_dir p t t' :
  mkdir_parents p t = Ok t' -> p <> [] -> t' !! p = Some Dir.
Proof. intros H Hne. by apply (mkdir_from_dir p [] t t'). Qed.

Lemma mkdir_parents_preserves p t t' q e :
  mkdir_parents p t = Ok t' -> t !! q = Some e -> t' !! q = Some e.
Proof. apply mkdir_from_preserves. Qed.

Lemma mkdir_parents_file p t t' q c :
  mkdir_parents p t = Ok t' -> t' !! q = Some (File c) ->
  t !! q = Some (File c).
Proof. apply mkdir_from_file. Qed.

Lemma stat_nonempty t p : p <> [] -> stat t p = t !! p.
Proof. by destruct p. Qed.

Lemma stat_app t p x : stat t (p ++ [x]) = t !! (p ++ [x]).
Proof. apply stat_nonempty. by destruct p. Qed.

(** Paths longer than the directory asked for are not touched. *)
Lemma mkdir_from_longer rest : forall pre t t' q,
  mkdir_from pre rest t = Ok t' ->
  (length pre + length rest < length q)%nat ->
  t' !! q = t !! q.
Proof.
  induction rest as [|x rest IH]; intros pre t t' q Hmk Hlen;
    simpl in Hmk.
  - by inversion Hmk; subst.
  - assert (Hlen' : (length (pre ++ [x]) + length rest < length q)%nat)
      by (rewrite List.length_app; simpl in *; lia).
    destruct (t !! (pre ++ [x])) as [[y|]|] eqn:Hc; try discriminate.
    + by eapply IH.
    + rewrite (IH _ _ _ _ Hmk Hlen'). apply lookup_insert_ne.
      intros <-. rewrite List.length_app in Hlen. simpl in Hlen. lia.
Qed.

Lemma mkdir_parents_longer p t t' q :
  mkdir_parents p t = Ok t' -> (length p < length q)%nat ->
  t' !! q = t !! q.
Proof. intros H Hl. by apply (mkdir_from_longer p [] t t' q). Qed.

Lemma child_name_spec p : forall k n,
  child_name p k = Some n <-> k = p ++ [n].
Proof.
  induction p as [|x p IH]; intros k n; simpl.
  - destruct k as [|y [|z k]]; split; intros H; try done.
    + by inversion H.
    + by inversion H.
  - destruct k as [|y k]; [split; intros H; done|].
    case_decide as Hxy.
    + subst y. rewrite IH. split; intros H; [by subst|by inversion H].
    + split; intros H; [done|]. inversion H. by subst.
Qed.

(** The listing of a directory names exactly its entries. *)
Lemma iterdir_elem t p names n :
  iterdir t p = Ok names -> n ∈ names <-> is_Some (t !! (p ++ [n])).
Proof.
  unfold iterdir. destruct (stat t p) as [[c|]|]; try done.
  intros [= <-]. rewrite list_elem_of_omap. split.
  - intros ([k e] & Hin & Hk). apply elem_of_map_to_list in Hin.
    simpl in Hk. apply child_name_spec in Hk. subst k. by exists e.
  - intros [e He]. exists (p ++ [n], e). split.
    + by apply elem_of_map_to_list.
    + simpl. by apply child_name_spec.
Qed.

End Mkdir.

End FsFacts.

(* ===================================================================== *)
(** * The frame sampler                                                   *)
(* ===================================================================== *)

Module SamplerFacts.
Import FsFacts ExtractFrames.

(** ** Counting the selected indices *)

Lemma cdiv_succ k i :
  0 < k -> cdiv (i + 1) k = cdiv i k + (if i mod k =? 0 then 1 else 0).
Proof.
  intros Hk. unfold cdiv.
  destruct (Z.eqb_spec (i mod k) 0) as [H0|H0].
  - symmetry. apply Z.div_unique with (r := 0); [lia|].
    pose proof (Z.div_mod i k ltac:(lia)) as Hi. rewrite H0 in Hi.
    assert (Hq : (i + k - 1) / k = i / k).
    { symmetry. apply Z.div_unique with (r := k - 1); lia. }
    rewrite Hq. lia.
  - pose proof (Z.mod_pos_bound i k Hk) as Hb.
    pose proof (Z.div_mod i k ltac:(lia)) as Hi.
    assert (Hq : (i + k - 1) / k = i / k + 1).
    { symmetry. apply Z.div_unique with (r := i mod k - 1); lia. }
    rewrite Hq, Z.add_0_r.
    symmetry. apply Z.div_unique with (r := i mod k); lia.
Qed.

Lemma cdiv_le k i j : 0 < k -> i <= j -> cdiv i k <= cdiv j k.
Proof. intros Hk Hij. unfold cdiv. apply Z.div_le_mono; lia. Qed.

Lemma cdiv_0 k : 0 < k -> cdiv 0 k = 0.
Proof. intros Hk. unfold cdiv. apply Z.div_small. lia. Qed.

Ltac run_M :=
  unfold mbind, M_bind, mret, M_ret, bind, ret, lift, raise, sys_exit,
    gets, modify in *; simpl in *.

(** ** The loop *)

Section Loop.
Variable cv2 : opencv.
Variables (images_path : path) (k : Z) (mf rw : option Z) (W H : Z).

Local Abbreviation loop := (read_loop cv2 images_path k mf rw W H).

(** Whatever the outcome, the loop appends to the log frames named by
    consecutive values of [saved_count], each the (possibly resized)
    image of a frame of the stream. *)
Lemma loop_emitted stream : forall idx c w,
  exists l,
    emitted (loop stream idx c w).2 = emitted w ++ l
    /\ (forall (j : nat) p img, l !! j = Some (p, img) ->
          p = images_path ++ [frame_name (c + Z.of_nat j)]
          /\ exists f, f ∈ stream
                       /\ maybe_resize cv2 rw W H f = Ok img)
    /\ (forall c', (loop stream idx c w).1 = Ok c' ->
          c' = c + Z.of_nat (length l)).
Proof.
  induction stream as [|f rest IH]; intros idx c w.
  - exists []. simpl. rewrite app_nil_r. split; [done|]. split.
    + intros j p img Hj. by rewrite lookup_nil in Hj.
    + intros c' [= <-]. simpl. lia.
  - simpl. run_M.
    destruct (mod_ idx k) as [r|e]; simpl;
      [|exists []; rewrite app_nil_r; split; [done|];
        split; [intros j p img Hj; by rewrite lookup_nil in Hj | done]].
    destruct (r =? 0).
    + destruct (maybe_resize cv2 rw W H f) as [img|e] eqn:Hrs; simpl;
        [|exists []; rewrite app_nil_r; split; [done|];
          split; [intros j p i Hj; by rewrite lookup_nil in Hj | done]].
      destruct (truthy mf && (default 0 mf <=? c + 1)).
      * exists [(images_path ++ [frame_name c], img)]. simpl.
        split; [done|]. split.
        -- intros [|j] p i Hj; simpl in Hj; [|by rewrite lookup_nil in Hj].
           inversion Hj; subst. rewrite Z.add_0_r. split; [done|].
           exists f. split; [left|done].
        -- intros c' [= <-]. lia.
      * match goal with |- context [loop rest ?i ?c1 ?w1] =>
          destruct (IH i c1 w1) as (l & Hl & Hn & Hc) end.
        exists ((images_path ++ [frame_name c], img) :: l).
        rewrite Hl. simpl. rewrite <- app_assoc. split; [done|]. split.
        -- intros [|j] p i Hj; simpl in Hj.
           ++ inversion Hj; subst. rewrite Z.add_0_r. split; [done|].
              exists f. split; [left|done].
           ++ destruct (Hn j p i Hj) as (-> & g & Hg & Hr).
              split; [do 3 f_equal; lia|].
              exists g. split; [by right|done].
        -- intros c' Hc'. rewrite (Hc c' Hc'). simpl length. lia.
    + match goal with |- context [loop rest ?i ?c1 ?w1] =>
        destruct (IH i c1 w1) as (l & Hl & Hn & Hc) end.
      exists l. rewrite Hl. simpl. split; [done|]. split; [|done].
      intros j p i Hj. destruct (Hn j p i Hj) as (-> & g & Hg & Hr).
      split; [done|]. exists g. split; [by right|done].
Qed.

(** With a positive stride and frames that can all be resized, the
    loop ends normally and emits the selected frames up to the budget. *)
Lemma loop_count stream : 0 < k -> forall idx c w,
  forallb (resizable cv2 rw W H) stream = true ->
  let n := budget mf c (cdiv (idx + Z.of_nat (length stream)) k
                        - cdiv idx k) in
  exists w',
    loop stream idx c w = (Ok (c + n), w')
    /\ Z.of_nat (length (emitted w'))
       = Z.of_nat (length (emitted w)) + n.
Proof.
  intros Hk. induction stream as [|f rest IH]; intros idx c w Hall n.
  - subst n. simpl. rewrite Z.add_0_r, Z.sub_diag. run_M.
    exists w. unfold budget.
    replace (if truthy mf then Z.min 0 (Z.max 1 (default 0 mf - c)) else 0)
      with 0 by (destruct (truthy mf); lia).
    rewrite Z.add_0_r. split; [done|]. lia.
  - simpl in Hall. apply andb_true_iff in Hall as [Hf Hall].
    unfold resizable in Hf.
    destruct (maybe_resize cv2 rw W H f) as [img|] eqn:Hrs; [|done].
    pose proof (cdiv_succ k idx Hk) as Hsucc.
    assert (Hlen : idx + Z.of_nat (length (f :: rest))
                   = idx + 1 + Z.of_nat (length rest))
      by (simpl length; lia).
    pose proof (cdiv_le k (idx + 1) (idx + 1 + Z.of_nat (length rest))
                  Hk ltac:(lia)) as Hmono.
    subst n. rewrite Hlen. simpl. run_M. rewrite Hrs.
    unfold mod_. destruct (Z.eqb_spec k 0) as [|_]; [lia|]. simpl.
    destruct (idx mod k =? 0) eqn:Hr; simpl.
    + destruct (truthy mf && (default 0 mf <=? c + 1)) eqn:Hb.
      * apply andb_true_iff in Hb as [Ht Hle]. apply Z.leb_le in Hle.
        eexists. split.
        -- do 2 f_equal. unfold budget. rewrite Ht. lia.
        -- simpl. rewrite List.length_app. simpl length.
           unfold budget. rewrite Ht. lia.
      * match goal with |- context [loop rest ?i ?c1 ?w1] =>
          destruct (IH i c1 w1 Hall) as (w' & Hrun & Hcnt) end.
        exists w'. rewrite Hrun, Hcnt. simpl. rewrite List.length_app.
        simpl length. unfold budget in *.
        destruct (truthy mf); simpl in Hb.
        -- apply Z.leb_gt in Hb. split; [do 2 f_equal|]; lia.
        -- split; [do 2 f_equal|]; lia.
    + match goal with |- context [loop rest ?i ?c1 ?w1] =>
        destruct (IH i c1 w1 Hall) as (w' & Hrun & Hcnt) end.
      exists w'. rewrite Hrun, Hcnt. simpl.
      rewrite Hsucc, Z.add_0_r. done.
Qed.

End Loop.

(** A cap of zero is falsy at both tests, so the loop runs as without
    a cap. *)
Lemma read_loop_cap_zero cv2 images_path k rw W H stream :
  forall idx c w,
    read_loop cv2 images_path k (Some 0) rw W H stream idx c w
    = read_loop cv2 images_path k None rw W H stream idx c w.
Proof.
  induction stream as [|f rest IH]; intros idx c w; [done|].
  simpl. run_M.
  destruct (mod_ idx k) as [r|e]; simpl; [|done].
  destruct (r =? 0); [|apply IH].
  destruct (maybe_resize cv2 rw W H f); simpl; [apply IH|done].
Qed.

(** ** The whole function *)

Section Run.
Variable cv2 : opencv.
Variables (t : gmap path (entry content)) (video_path output_dir : path).
Variables (k : Z) (mf rw : option Z).

Local Abbreviation images_path := (output_dir ++ ["input"]).

(** The function, case by case. *)
Lemma run_cases :
  run cv2 t video_path output_dir k mf rw =
  match mkdir_parents images_path t with
  | Raise r => (Raise r, World t [] 0)
  | Ok t' =>
      match cv_open cv2 t' video_path with
      | Some v =>
          match floordiv (frame_count v) k with
          | Raise r => (Raise r, World t' [] 0)
          | Ok _ =>
              let out :=
                read_loop cv2 images_path k mf rw (frame_width v)
                  (frame_height v) (frames v) 0 0 (World t' [] 0) in
              (match out.1 with
               | Ok _ => Ok images_path
               | Raise r => Raise r
               end, out.2)
          end
      | None => (Raise (SystemExit 1), World t' [] 0)
      end
  end.
Proof.
  unfold run, extract_frames, mkdir, VideoCapture. run_M.
  destruct (mkdir_parents images_path t) as [t'|r]; [simpl|done].
  destruct (cv_open cv2 t' video_path) as [v|]; [|done].
  destruct (floordiv (frame_count v) k); [simpl|done].
  by destruct (read_loop _ _ _ _ _ _ _ _ _ _ _) as [[c|r] w].
Qed.

(** When the video cannot be opened the call ends in [sys.exit(1)],
    after the directory was made and before anything is decoded. *)
Lemma run_unopened t' :
  mkdir_parents images_path t = Ok t' ->
  cv_open cv2 t' video_path = None ->
  run cv2 t video_path output_dir k mf rw
  = (Raise (SystemExit 1), World t' [] 0).
Proof. intros Hdir Hno. by rewrite run_cases, Hdir, Hno. Qed.

(** When the video opens, the call is the loop over its frames. *)
Lemma run_opened t' v :
  mkdir_parents images_path t = Ok t' ->
  cv_open cv2 t' video_path = Some v ->
  k <> 0 ->
  run cv2 t video_path output_dir k mf rw
  = let out :=
      read_loop cv2 images_path k mf rw (frame_width v)
        (frame_height v) (frames v) 0 0 (World t' [] 0) in
    (match out.1 with
     | Ok _ => Ok images_path
     | Raise r => Raise r
     end, out.2).
Proof.
  intros Hdir Hv Hk. rewrite run_cases, Hdir, Hv.
  unfold floordiv. by destruct (Z.eqb_spec k 0).
Qed.

(** What the log holds after any call: consecutively named files,
    each the (possibly resized) image of a frame of the opened video. *)
Lemma run_emitted :
  forall (j : nat) p img,
    emitted (run cv2 t video_path output_dir k mf rw).2 !! j
      = Some (p, img) ->
    p = images_path ++ [frame_name (Z.of_nat j)]
    /\ exists t' v f,
         mkdir_parents images_path t = Ok t'
         /\ cv_open cv2 t' video_path = Some v
         /\ f ∈ frames v
         /\ maybe_resize cv2 rw (frame_width v) (frame_height v) f
              = Ok img.
Proof.
  intros j p img. rewrite run_cases.
  destruct (mkdir_parents images_path t) as [t'|r] eqn:Hdir;
    [|simpl; by rewrite lookup_nil].
  destruct (cv_open cv2 t' video_path) as [v|] eqn:Hv;
    [|simpl; by rewrite lookup_nil].
  destruct (floordiv (frame_count v) k); [|simpl; by rewrite lookup_nil].
  cbn [snd].
  destruct (loop_emitted cv2 images_path k mf rw (frame_width v)
              (frame_height v) (frames v) 0 0 (World t' [] 0))
    as (l & Hl & Hn & _).
  rewrite Hl. simpl. intros Hj.
  destruct (Hn j p img Hj) as (Hp & f & Hf & Hr).
  split; [by rewrite Hp|]. by exists t', v, f.
Qed.

(** The count of a completed run. *)
Lemma run_count t' v :
  0 < k ->
  mkdir_parents images_path t = Ok t' ->
  cv_open cv2 t' video_path = Some v ->
  forallb (resizable cv2 rw (frame_width v) (frame_height v))
    (frames v) = true ->
  exists w',
    run cv2 t video_path output_dir k mf rw = (Ok images_path, w')
    /\ Z.of_nat (length (emitted w'))
       = budget mf 0 (cdiv (Z.of_nat (length (frames v))) k).
Proof.
  intros Hk Hdir Hv Hres.
  rewrite (run_opened t' v Hdir Hv ltac:(lia)).
  destruct (loop_count cv2 images_path k mf rw (frame_width v)
              (frame_height v) (frames v) Hk 0 0 (World t' [] 0) Hres)
    as (w' & Hrun & Hcnt).
  exists w'. cbn zeta. rewrite Hrun. cbn [fst snd]. split; [done|].
  rewrite Hcnt. simpl. by rewrite cdiv_0, Z.sub_0_r.
Qed.

End Run.

End SamplerFacts.

(* ===================================================================== *)
(** * Properties of the frame sampler                                     *)
(* ===================================================================== *)

Module SamplerSpec.
Import FsFacts PyFacts ExtractFrames SamplerFacts.

(** When the stride divides the number of frames, the count is the plain
    quotient (100 frames at stride 10 give 10). *)
Lemma cdiv_exact T k : 0 < k -> T mod k = 0 -> cdiv T k = T / k.
Proof.
  intros Hk Hm. unfold cdiv.
  pose proof (Z.div_mod T k ltac:(lia)) as HT. rewrite Hm in HT.
  symmetry. apply Z.div_unique with (r := k - 1); lia.
Qed.

(** C1, as stated, fails: a stream of 5 frames sampled at stride 2 emits
    the frames at indices 0, 2 and 4, three frames, while
    [floor(5 / 2) = 2]; with a cap of 5 the count is still 3, not
    [min(floor(5 / 2), 5) = 2]. *)
Lemma emitted_count_is_not_floor :
  let v := clip 5 4 6 in
  let T := Z.of_nat (length (frames v)) in
  let count mf :=
    Z.of_nat (length (emitted
      (run stub_cv2 (disk v) ["clip.mp4"] ["data"] 2 mf None).2)) in
  T = 5 /\ count None = 3 /\ count None <> T / 2
  /\ count (Some 5) = 3 /\ count (Some 5) <> Z.min (T / 2) 5.
Proof. vm_compute. repeat split; congruence. Qed.

(** C1 (amended).  For every video that opens and delivers [T] frames and
    every positive stride [k], a call whose output directory can be
    created and for whose frames lines 72-75 go through (no resize is
    asked, or the size is one [cv2.resize] takes and OpenCV carries each
    resize out) returns normally and emits exactly [ceil(T / k)] frames
    when no cap is set, and exactly [min(ceil(T / k), N)] frames when a
    cap [N >= 1] is set. *)
Theorem emitted_count cv2 t video_path output_dir k mf rw t' v :
  0 < k ->
  mkdir_parents (output_dir ++ ["input"]) t = Ok t' ->
  cv_open cv2 t' video_path = Some v ->
  forallb (resizable cv2 rw (frame_width v) (frame_height v))
    (frames v) = true ->
  match mf with Some N => 1 <= N | None => True end ->
  exists w',
    run cv2 t video_path output_dir k mf rw
      = (Ok (output_dir ++ ["input"]), w')
    /\ Z.of_nat (length (emitted w'))
       = match mf with
         | None => cdiv (Z.of_nat (length (frames v))) k
         | Some N => Z.min (cdiv (Z.of_nat (length (frames v))) k) N
         end.
Proof.
  intros Hk Hdir Hv Hres Hcap.
  destruct (run_count cv2 t video_path output_dir k mf rw t' v
              Hk Hdir Hv Hres) as (w' & Hrun & Hcnt).
  exists w'. split; [done|]. rewrite Hcnt. unfold budget.
  destruct mf as [N|]; [|done].
  simpl. destruct (Z.eqb_spec N 0); simpl; lia.
Qed.

Lemma emitted_count_witness :
  exists w',
    run stub_cv2 (disk (clip 5 4 6)) ["clip.mp4"] ["data"] 2 (Some 2) None
      = (Ok ["data"; "input"], w')
    /\ Z.of_nat (length (emitted w')) = 2.
Proof.
  apply (emitted_count stub_cv2 (disk (clip 5 4 6)) ["clip.mp4"] ["data"]
           2 (Some 2) None
           (<[ ["data"; "input"] := Dir ]>
              (<[ ["data"] := Dir ]> (disk (clip 5 4 6))))
           (clip 5 4 6));
    [lia | reflexivity | reflexivity | reflexivity | simpl; lia].
Defined.

(** C2, as stated, fails: a 1920x1080 stream resized to width 1278 is
    emitted with height 718, the truncation of 718.875, while the nearest
    integer to [1278 * 1080 / 1920] is 719. *)
Lemma resized_height_is_not_rounded :
  exists p img,
    emitted (run stub_cv2 (disk (clip 1 1080 1920)) ["clip.mp4"] ["data"]
               1 None (Some 1278)).2 = [(p, img)]
    /\ cols img = 1278 /\ rows img = 718
    /\ ~ rounds_to (rows img) (1278 * 1080) 1920
    /\ rounds_to 719 (1278 * 1080) 1920.
Proof.
  eexists _, _. split; [vm_compute; reflexivity|].
  unfold rounds_to. simpl. lia.
Qed.

(** C2 (amended).  If [resize_width = w] is set (and not zero), every
    emitted frame has width exactly [w] and height
    [int(w * (H / W))]: the binary64 product of [w] and the binary64
    quotient of the stream's height [H] by its width [W], truncated
    toward zero. *)
Theorem resized_dimensions cv2 t video_path output_dir k mf w p img :
  w <> 0 ->
  (p, img) ∈ emitted (run cv2 t video_path output_dir k mf (Some w)).2 ->
  exists t' v,
    mkdir_parents (output_dir ++ ["input"]) t = Ok t'
    /\ cv_open cv2 t' video_path = Some v
    /\ cols img = w
    /\ new_height w (frame_width v) (frame_height v) = Ok (rows img).
Proof.
  intros Hw Hin.
  apply list_elem_of_lookup in Hin as [j Hj].
  apply run_emitted in Hj as (_ & t' & v & f & Hdir & Hv & _ & Hrs).
  exists t', v. do 2 (split; [done|]).
  unfold maybe_resize, truthy in Hrs.
  destruct (Z.eqb_spec w 0) as [|_]; [done|]. simpl in Hrs.
  destruct (new_height w (frame_width v) (frame_height v)) as [nh|];
    [|done].
  unfold cv2_resize, resize in Hrs. simpl in Hrs.
  destruct (fits_int w && fits_int nh && cv_resizes cv2 f (w, nh));
    [|done].
  destruct ((0 <? w) && (0 <? nh) && (0 <? rows f) && (0 <? cols f));
    [|done].
  by inversion Hrs; subst.
Qed.

Lemma resized_dimensions_witness :
  let log := emitted (run stub_cv2 (disk (clip 3 480 640)) ["clip.mp4"]
                        ["data"] 1 None (Some 320)).2 in
  exists p img, log !! 0%nat = Some (p, img)
                /\ cols img = 320
                /\ new_height 320 640 480 = Ok (rows img).
Proof.
  eexists _, _. split; [vm_compute; reflexivity|].
  match goal with
  | |- cols ?img = _ /\ _ =>
      assert (Hin : (["data"; "input"; "frame_00000.jpg"], img)
                    ∈ emitted (run stub_cv2 (disk (clip 3 480 640))
                                 ["clip.mp4"] ["data"] 1 None
                                 (Some 320)).2)
        by (apply list_elem_of_lookup; exists 0%nat;
            vm_compute; reflexivity)
  end.
  destruct (resized_dimensions stub_cv2 (disk (clip 3 480 640))
              ["clip.mp4"] ["data"] 1 None 320 _ _ ltac:(lia) Hin)
    as (t' & v & Hdir & Hv & Hc & Hh).
  split; [exact Hc|].
  assert (Hm : mkdir_parents (["data"] ++ ["input"])
                 (disk (clip 3 480 640))
               = Ok (<[ ["data"; "input"] := Dir ]>
                       (<[ ["data"] := Dir ]> (disk (clip 3 480 640)))))
    by reflexivity.
  assert (Ht : t' = <[ ["data"; "input"] := Dir ]>
                      (<[ ["data"] := Dir ]> (disk (clip 3 480 640))))
    by congruence.
  rewrite Ht in Hv.
  assert (Ho : cv_open stub_cv2
                 (<[ ["data"; "input"] := Dir ]>
                    (<[ ["data"] := Dir ]> (disk (clip 3 480 640))))
                 ["clip.mp4"]
               = Some (clip 3 480 640)) by reflexivity.
  assert (Hv0 : v = clip 3 480 640) by congruence.
  rewrite Hv0 in Hh. exact Hh.
Defined.

(** The scenario of the specification: 640x480 at width 320 gives height
    240; and two inputs where truncation and rounding part ways. *)
Example new_height_640x480 : new_height 320 640 480 = Ok 240.
Proof. reflexivity. Qed.

Example new_height_1920x1080 : new_height 1278 1920 1080 = Ok 718.
Proof. reflexivity. Qed.

Example new_height_49x1 : new_height 49 49 1 = Ok 0.
Proof. reflexivity. Qed.

(** The end-to-end scenarios of the specification, on a 100-frame
    640x480 stream at stride 10. *)
Example scenario_no_cap :
  map fst (emitted (run stub_cv2 (disk (clip 100 480 640)) ["clip.mp4"]
                      ["data"] 10 None None).2)
  = map (fun n => ["data"; "input"; n])
      ["frame_00000.jpg"; "frame_00001.jpg"; "frame_00002.jpg";
       "frame_00003.jpg"; "frame_00004.jpg"; "frame_00005.jpg";
       "frame_00006.jpg"; "frame_00007.jpg"; "frame_00008.jpg";
       "frame_00009.jpg"].
Proof. vm_compute. reflexivity. Qed.

Example scenario_cap_3 :
  length (emitted (run stub_cv2 (disk (clip 100 480 640)) ["clip.mp4"]
                     ["data"] 10 (Some 3) None).2) = 3%nat.
Proof. vm_compute. reflexivity. Qed.

Example scenario_resize_320 :
  map (fun e => (cols e.2, rows e.2))
    (emitted (run stub_cv2 (disk (clip 100 480 640)) ["clip.mp4"]
                ["data"] 10 None (Some 320)).2)
  = replicate 10 (320, 240).
Proof. vm_compute. reflexivity. Qed.

(** C3, as stated, fails: the output directory is made before the video
    is opened, so with a regular file where the directory [data] should
    be, a call on a video that cannot be opened dies of
    [NotADirectoryError] in [mkdir]; the open is never tried, and the
    failure of the open, were it reached, is signalled by
    [sys.exit(1)]: the script has no [StreamOpenError]. *)
Lemma unopenable_video_may_fail_in_mkdir :
  let t : gmap path (entry content) :=
    {[ ["data"] := File (OtherFile "notes") ]} in
  cv_open stub_cv2 t ["missing.mp4"] = None
  /\ run stub_cv2 t ["missing.mp4"] ["data"] 2 None None
     = (Raise (Exc NotADirectoryError), World t [] 0)
  /\ (run stub_cv2 t ["missing.mp4"] ["data"] 2 None None).1
     <> Raise (SystemExit 1).
Proof. vm_compute. repeat split; congruence. Qed.

(** C3 (amended).  If the output directory can be made and OpenCV then
    cannot open the video, the call ends in [sys.exit(1)] (the script's
    way of signalling the open failure) with no frame decoded, no frame
    handed to [cv2.imwrite] and no image file added to the filesystem. *)
Theorem unopenable_video_exits cv2 t video_path output_dir k mf rw t' :
  mkdir_parents (output_dir ++ ["input"]) t = Ok t' ->
  cv_open cv2 t' video_path = None ->
  exists w',
    run cv2 t video_path output_dir k mf rw
      = (Raise (SystemExit 1), w')
    /\ decoded w' = 0
    /\ emitted w' = []
    /\ forall p c, fs w' !! p = Some (File c) -> t !! p = Some (File c).
Proof.
  intros Hdir Hno. exists (World t' [] 0).
  split; [by apply run_unopened|]. do 2 (split; [done|]).
  intros p c Hp. by eapply mkdir_parents_file.
Qed.

Lemma unopenable_video_exits_witness :
  exists w',
    run stub_cv2 (disk (clip 5 4 6)) ["missing.mp4"] ["data"] 2 None None
      = (Raise (SystemExit 1), w')
    /\ decoded w' = 0
    /\ emitted w' = []
    /\ forall p c, fs w' !! p = Some (File c) ->
                   disk (clip 5 4 6) !! p = Some (File c).
Proof.
  apply (unopenable_video_exits stub_cv2 (disk (clip 5 4 6))
           ["missing.mp4"] ["data"] 2 None None
           (<[ ["data"; "input"] := Dir ]>
              (<[ ["data"] := Dir ]> (disk (clip 5 4 6)))));
    reflexivity.
Defined.

(** C4.  In every run the files handed to [cv2.imwrite] are, in emission
    order, [frame_<j>.jpg] for [j = 0, 1, 2, ...] without gaps, whatever
    the stride; the name of number [j] reads back as [j], and its digits
    are those of [j] padded with zeros to at least five characters. *)
Theorem frame_names_sequential cv2 t video_path output_dir k mf rw :
  let log := emitted (run cv2 t video_path output_dir k mf rw).2 in
  map fst log
    = map (fun j : nat =>
             (output_dir ++ ["input"]) ++ [frame_name (Z.of_nat j)])
          (seq 0 (length log))
  /\ (forall j : nat,
        frame_number (frame_name (Z.of_nat j)) = Some (N.of_nat j))
  /\ (forall j : nat,
        format_05d (Z.of_nat j)
          = zeros (5 - String.length (decimal (N.of_nat j)))
            +:+ decimal (N.of_nat j)
        /\ String.length (format_05d (Z.of_nat j))
           = Nat.max 5 (String.length (decimal (N.of_nat j)))).
Proof.
  intros log. split; [|split].
  - apply list_eq. intros j. rewrite !list_lookup_fmap.
    destruct (log !! j) as [[p img]|] eqn:Hj; simpl.
    + pose proof (lookup_lt_Some _ _ _ Hj) as Hlt.
      rewrite lookup_seq_lt by done. simpl.
      by apply run_emitted in Hj as [-> _].
    + apply lookup_ge_None in Hj. by rewrite lookup_seq_ge.
  - intros j. unfold frame_name, frame_number.
    rewrite strip_prefix_append, format_05d_nonneg. unfold zfill.
    rewrite append_assoc, digits_before_zeros. unfold decimal.
    rewrite digits_before_printed. simpl.
    by rewrite DecimalN.Unsigned.of_to.
  - intros j. rewrite format_05d_nonneg. split; [done|].
    apply length_zfill.
Qed.

(** C9.  A cap of 0 behaves as no cap at all: the call has the same
    outcome as with [max_frames = None], so (for a positive stride on a
    video that opens, when the directory can be made and lines 72-75 go
    through for every frame) every stride-selected frame is emitted,
    [ceil(T / k)] of them, not zero. *)
Theorem cap_zero_is_no_cap cv2 t video_path output_dir k rw :
  run cv2 t video_path output_dir k (Some 0) rw
    = run cv2 t video_path output_dir k None rw
  /\ forall t' v,
       0 < k ->
       mkdir_parents (output_dir ++ ["input"]) t = Ok t' ->
       cv_open cv2 t' video_path = Some v ->
       forallb (resizable cv2 rw (frame_width v) (frame_height v))
         (frames v) = true ->
       exists w',
         run cv2 t video_path output_dir k (Some 0) rw
           = (Ok (output_dir ++ ["input"]), w')
         /\ Z.of_nat (length (emitted w'))
            = cdiv (Z.of_nat (length (frames v))) k.
Proof.
  split.
  - rewrite !run_cases.
    destruct (mkdir_parents _ t) as [t'|]; [|done].
    destruct (cv_open cv2 t' video_path) as [v|]; [|done].
    destruct (floordiv (frame_count v) k); [|done].
    by rewrite read_loop_cap_zero.
  - intros t' v Hk Hdir Hv Hres.
    destruct (run_count cv2 t video_path output_dir k (Some 0) rw t' v
                Hk Hdir Hv Hres) as (w' & Hrun & Hcnt).
    by exists w'.
Qed.

Lemma cap_zero_is_no_cap_witness :
  exists w',
    run stub_cv2 (disk (clip 5 4 6)) ["clip.mp4"] ["data"] 2 (Some 0) None
      = (Ok ["data"; "input"], w')
    /\ Z.of_nat (length (emitted w')) = 3.
Proof.
  apply (proj2 (cap_zero_is_no_cap stub_cv2 (disk (clip 5 4 6))
                  ["clip.mp4"] ["data"] 2 None)
           (<[ ["data"; "input"] := Dir ]>
              (<[ ["data"] := Dir ]> (disk (clip 5 4 6))))
           (clip 5 4 6));
    [lia | reflexivity | reflexivity | reflexivity].
Defined.

(** C10.  The directory [<output_dir>/input] is made before the video is
    opened: when the call fails because the video cannot be opened, the
    filesystem it leaves holds that directory, and differs from the one
    it started on whenever the directory was not there before. *)
Theorem output_dir_created_before_open
    cv2 t video_path output_dir k mf rw t' :
  mkdir_parents (output_dir ++ ["input"]) t = Ok t' ->
  cv_open cv2 t' video_path = None ->
  exists w',
    run cv2 t video_path output_dir k mf rw
      = (Raise (SystemExit 1), w')
    /\ fs w' !! (output_dir ++ ["input"]) = Some Dir
    /\ (t !! (output_dir ++ ["input"]) = None -> fs w' <> t).
Proof.
  intros Hdir Hno. exists (World t' [] 0).
  split; [by apply run_unopened|].
  assert (Hd : t' !! (output_dir ++ ["input"]) = Some Dir).
  { apply (mkdir_parents_dir _ t); [done|]. by destruct output_dir. }
  split; [done|]. simpl. intros Hnone Heq. congruence.
Qed.

Lemma output_dir_created_before_open_witness :
  exists w',
    run stub_cv2 (disk (clip 5 4 6)) ["missing.mp4"] ["data"] 2 None None
      = (Raise (SystemExit 1), w')
    /\ fs w' !! ["data"; "input"] = Some Dir
    /\ (disk (clip 5 4 6) !! ["data"; "input"] = None ->
        fs w' <> disk (clip 5 4 6)).
Proof.
  apply (output_dir_created_before_open stub_cv2 (disk (clip 5 4 6))
           ["missing.mp4"] ["data"] 2 None None
           (<[ ["data"; "input"] := Dir ]>
              (<[ ["data"] := Dir ]> (disk (clip 5 4 6)))));
    reflexivity.
Defined.

End SamplerSpec.

(* ===================================================================== *)
(** * More on the frame sampler                                           *)
(* ===================================================================== *)

Module SamplerMoreFacts.
Import FsFacts PyFacts ExtractFrames SamplerFacts.

Lemma mod_ok k idx : k <> 0 -> mod_ idx k = Ok (idx mod k).
Proof. intros Hk. unfold mod_. by destruct (Z.eqb_spec k 0). Qed.

Lemma cdiv_multiple k idx :
  0 < k -> idx mod k = 0 -> k * cdiv idx k = idx.
Proof.
  intros Hk Hm. unfold cdiv.
  pose proof (Z.div_mod idx k ltac:(lia)) as Hi. rewrite Hm in Hi.
  assert (Hq : (idx + k - 1) / k = idx / k).
  { symmetry. apply Z.div_unique with (r := k - 1); lia. }
  rewrite Hq. lia.
Qed.



(** ** What [cv2.imwrite] does to the tree *)

Lemma stored_other t p q frame :
  q <> p -> stored t p frame !! q = t !! q.
Proof.
  intros Hq. unfold stored, write. destruct p as [|x p']; [done|].
  destruct (stat t (removelast (x :: p'))) as [[?|]|]; try done.
  destruct (t !! (x :: p')) as [[?|]|]; try done;
    destruct (encodable frame);
    by rewrite ?lookup_insert_ne, ?lookup_delete_ne.
Qed.

Lemma stored_not_dir t p frame :
  t !! p <> Some Dir -> stored t p frame !! p <> Some Dir.
Proof.
  intros Hp. unfold stored, write. destruct p as [|x p']; [done|].
  destruct (stat t (removelast (x :: p'))) as [[?|]|]; try done.
  destruct (t !! (x :: p')) as [[?|]|] eqn:Hl; try done;
    destruct (encodable frame);
    by rewrite ?lookup_insert_eq, ?lookup_delete_eq.
Qed.


Section Loop.
Variable cv2 : opencv.
Variables (images_path : path) (k : Z) (mf rw : option Z) (W H : Z).

Local Abbreviation loop := (read_loop cv2 images_path k mf rw W H).

(** The frames the loop emits are those at the multiples of the
    stride, in order: the [j]-th frame it appends sits at the
    absolute index [k * (ceil(idx / k) + j)]. *)
Lemma loop_selected stream : 0 < k -> forall idx c w,
  exists l,
    emitted (loop stream idx c w).2 = emitted w ++ l
    /\ forall (j : nat) p img, l !! j = Some (p, img) ->
         exists (i : nat) f,
           stream !! i = Some f
           /\ maybe_resize cv2 rw W H f = Ok img
           /\ idx + Z.of_nat i = k * (cdiv idx k + Z.of_nat j).
Proof.
  intros Hk. induction stream as [|f rest IH]; intros idx c w.
  - exists []. simpl. rewrite app_nil_r. split; [done|].
    intros j p img Hj. by rewrite lookup_nil in Hj.
  - pose proof (cdiv_succ k idx Hk) as Hsucc.
    simpl. run_M. rewrite (mod_ok k idx ltac:(lia)). simpl.
    destruct (Z.eqb_spec (idx mod k) 0) as [Hm|Hm].
    + pose proof (cdiv_multiple k idx Hk Hm) as Hmul.
      destruct (maybe_resize cv2 rw W H f) as [img|e] eqn:Hrs; simpl;
        [|exists []; rewrite app_nil_r; split; [done|];
          intros j p i Hj; by rewrite lookup_nil in Hj].
      destruct (truthy mf && (default 0 mf <=? c + 1)).
      * exists [(images_path ++ [frame_name c], img)]. simpl.
        split; [done|].
        intros [|j] p i Hj; simpl in Hj; [|by rewrite lookup_nil in Hj].
        inversion Hj; subst. exists 0%nat, f.
        split; [done|]. split; [done|]. lia.
      * match goal with |- context [loop rest ?i ?c1 ?w1] =>
          destruct (IH i c1 w1) as (l & Hl & Hn) end.
        exists ((images_path ++ [frame_name c], img) :: l).
        rewrite Hl. simpl. rewrite <- app_assoc. split; [done|].
        intros [|j] p i Hj; simpl in Hj.
        -- inversion Hj; subst. exists 0%nat, f.
           split; [done|]. split; [done|]. lia.
        -- destruct (Hn j p i Hj) as (i' & g & Hg & Hr & Hidx).
           exists (S i'), g. split; [done|]. split; [done|]. lia.
    + match goal with |- context [loop rest ?i ?c1 ?w1] =>
        destruct (IH i c1 w1) as (l & Hl & Hn) end.
      exists l. rewrite Hl. simpl. split; [done|].
      intros j p i Hj.
      destruct (Hn j p i Hj) as (i' & g & Hg & Hr & Hidx).
      exists (S i'), g. split; [done|]. split; [done|]. lia.
Qed.

(** How many frames the loop decodes: all of them without a cap, and
    with a cap no more than it takes to reach it. *)
Lemma loop_decoded stream : 0 < k -> forall idx c w,
  forallb (resizable cv2 rw W H) stream = true ->
  decoded (loop stream idx c w).2
  = decoded w
    + (if truthy mf
       then Z.min (Z.of_nat (length stream))
              (k * (cdiv idx k + Z.max 1 (default 0 mf - c) - 1)
               - idx + 1)
       else Z.of_nat (length stream)).
Proof.
  intros Hk. induction stream as [|f rest IH]; intros idx c w Hall.
  - simpl.
    pose proof (cdiv_le k 0 idx Hk) as Hle.
    assert (Hlow : idx <= k * cdiv idx k).
    { unfold cdiv.
      pose proof (Z.div_mod (idx + k - 1) k ltac:(lia)) as Hd.
      pose proof (Z.mod_pos_bound (idx + k - 1) k Hk). lia. }
    destruct (truthy mf); [|lia]. nia.
  - simpl in Hall. apply andb_true_iff in Hall as [Hf Hall].
    unfold resizable in Hf.
    destruct (maybe_resize cv2 rw W H f) as [img|] eqn:Hrs; [|done].
    pose proof (cdiv_succ k idx Hk) as Hsucc.
    assert (Hlow : idx <= k * cdiv idx k).
    { unfold cdiv.
      pose proof (Z.div_mod (idx + k - 1) k ltac:(lia)) as Hd.
      pose proof (Z.mod_pos_bound (idx + k - 1) k Hk). lia. }
    simpl. run_M. rewrite Hrs, (mod_ok k idx ltac:(lia)). simpl.
    destruct (Z.eqb_spec (idx mod k) 0) as [Hm|Hm].
    + pose proof (cdiv_multiple k idx Hk Hm) as Hmul.
      destruct (truthy mf && (default 0 mf <=? c + 1)) eqn:Hb.
      * apply andb_true_iff in Hb as [Ht Hle]. apply Z.leb_le in Hle.
        rewrite Ht. simpl. lia.
      * match goal with |- context [loop rest ?i ?c1 ?w1] =>
          rewrite (IH i c1 w1 Hall) end.
        simpl. destruct (truthy mf); simpl in Hb; [|lia].
        apply Z.leb_gt in Hb. rewrite Hsucc. nia.
    + match goal with |- context [loop rest ?i ?c1 ?w1] =>
        rewrite (IH i c1 w1 Hall) end.
      simpl. rewrite Hsucc, Z.add_0_r.
      destruct (truthy mf); lia.
Qed.

(** Whatever the outcome, the loop leaves every path that is not one
    of its frame files as it was. *)
Lemma loop_fs_frame stream : forall idx c w p,
  (forall j : nat, p <> images_path ++ [frame_name (c + Z.of_nat j)]) ->
  fs (loop stream idx c w).2 !! p = fs w !! p.
Proof.
  induction stream as [|f rest IH]; intros idx c w p Hp; [done|].
  simpl. run_M.
  destruct (mod_ idx k) as [r|e]; simpl; [|done].
  destruct (r =? 0).
  - destruct (maybe_resize cv2 rw W H f) as [img|e]; simpl; [|done].
    assert (Hw : stored (fs w) (images_path ++ [frame_name c]) img !! p
                 = fs w !! p).
    { apply stored_other. intros ->. apply (Hp 0%nat).
      by rewrite Z.add_0_r. }
    destruct (truthy mf && (default 0 mf <=? c + 1)); simpl; [done|].
    rewrite IH; [done|].
    intros j. replace (c + 1 + Z.of_nat j) with (c + Z.of_nat (S j))
      by lia. apply Hp.
  - by rewrite IH.
Qed.


End Loop.

(** A width of zero is falsy, so the loop runs as without a resize. *)
Lemma read_loop_resize_zero cv2 images_path k mf W H stream :
  forall idx c w,
    read_loop cv2 images_path k mf (Some 0) W H stream idx c w
    = read_loop cv2 images_path k mf None W H stream idx c w.
Proof.
  induction stream as [|f rest IH]; intros idx c w; [done|].
  simpl. run_M.
  destruct (mod_ idx k) as [r|e]; simpl; [|done].
  destruct (r =? 0); [|apply IH].
  destruct (truthy mf && (default 0 mf <=? c + 1)); [done|apply IH].
Qed.

Lemma cdiv_pos k T : 0 < k -> 0 < T -> 1 <= cdiv T k.
Proof.
  intros Hk HT. unfold cdiv. apply Z.div_le_lower_bound; lia.
Qed.

Section Run.
Variable cv2 : opencv.
Variables (t : gmap path (entry content)) (video_path output_dir : path).
Variables (k : Z) (mf rw : option Z).

Local Abbreviation images_path := (output_dir ++ ["input"]).

(** The [j]-th file of any run holds the frame of index [j * k]. *)
Lemma run_selected (j : nat) p img :
  0 < k ->
  emitted (run cv2 t video_path output_dir k mf rw).2 !! j
    = Some (p, img) ->
  exists t' v f,
    mkdir_parents images_path t = Ok t'
    /\ cv_open cv2 t' video_path = Some v
    /\ frames v !! Z.to_nat (k * Z.of_nat j) = Some f
    /\ maybe_resize cv2 rw (frame_width v) (frame_height v) f
       = Ok img.
Proof.
  intros Hk. rewrite run_cases.
  destruct (mkdir_parents images_path t) as [t'|r] eqn:Hdir;
    [|simpl; by rewrite lookup_nil].
  destruct (cv_open cv2 t' video_path) as [v|] eqn:Hv;
    [|simpl; by rewrite lookup_nil].
  destruct (floordiv (frame_count v) k); [|simpl; by rewrite lookup_nil].
  cbn [snd].
  destruct (loop_selected cv2 images_path k mf rw (frame_width v)
              (frame_height v) (frames v) Hk 0 0 (World t' [] 0))
    as (l & Hl & Hn).
  rewrite Hl. simpl. intros Hj.
  destruct (Hn j p img Hj) as (i & f & Hi & Hr & Hidx).
  rewrite cdiv_0 in Hidx by done.
  exists t', v, f. do 2 (split; [done|]). split; [|done].
  replace (Z.to_nat (k * Z.of_nat j)) with i by lia. done.
Qed.

End Run.

End SamplerMoreFacts.

Module SamplerExtra.
Import FsFacts PyFacts ExtractFrames SamplerFacts SamplerMoreFacts Samples.

Section Run.
Variable cv2 : opencv.
Variables (t : gmap path (entry content)) (video_path output_dir : path).

Local Abbreviation images_path := (output_dir ++ ["input"]).

(** X1.  Whatever the cap and the outcome, the [j]-th emitted frame is
    the decoded frame of index [j * k], passed through the optional
    resize; with no resize asked it is that frame itself, untouched. *)
Theorem selected_frames k mf rw (j : nat) p img :
  0 < k ->
  emitted (run cv2 t video_path output_dir k mf rw).2 !! j
    = Some (p, img) ->
  exists t' v f,
    mkdir_parents images_path t = Ok t'
    /\ cv_open cv2 t' video_path = Some v
    /\ frames v !! Z.to_nat (k * Z.of_nat j) = Some f
    /\ maybe_resize cv2 rw (frame_width v) (frame_height v) f = Ok img
    /\ (truthy rw = false -> img = f).
Proof.
  intros Hk Hj.
  destruct (run_selected cv2 t video_path output_dir k mf rw j p
              img Hk Hj) as (t' & v & f & Hdir & Hv & Hf & Hr).
  exists t', v, f. do 4 (split; [done|]).
  intros Hrw. unfold maybe_resize in Hr. rewrite Hrw in Hr.
  destruct rw; by inversion Hr.
Qed.

(** X2.  Without a cap, every frame whose index is a multiple of the
    stride is emitted, the frame of index [j * k] as the [j]-th file
    (with X1: these and no others). *)
Theorem multiples_are_emitted k mf rw t' v (j : nat) f :
  0 < k ->
  mkdir_parents images_path t = Ok t' ->
  cv_open cv2 t' video_path = Some v ->
  forallb (resizable cv2 rw (frame_width v) (frame_height v))
    (frames v) = true ->
  truthy mf = false ->
  frames v !! Z.to_nat (k * Z.of_nat j) = Some f ->
  exists p img,
    emitted (run cv2 t video_path output_dir k mf rw).2 !! j
      = Some (p, img)
    /\ p = images_path ++ [frame_name (Z.of_nat j)]
    /\ maybe_resize cv2 rw (frame_width v) (frame_height v) f = Ok img.
Proof.
  intros Hk Hdir Hv Hres Hmf Hi.
  destruct (run_count cv2 t video_path output_dir k mf rw t' v
              Hk Hdir Hv Hres) as (w' & Hrun & Hcnt).
  unfold budget in Hcnt. rewrite Hmf in Hcnt.
  pose proof (lookup_lt_Some _ _ _ Hi) as HiT.
  assert (Hlt : (j < length (emitted w'))%nat).
  { assert (Z.of_nat j + 1
            <= cdiv (Z.of_nat (length (frames v))) k); [|lia].
    unfold cdiv. apply Z.div_le_lower_bound; nia. }
  apply lookup_lt_is_Some in Hlt as [[p img] Hj].
  exists p, img. rewrite Hrun. simpl. split; [done|].
  replace w' with (run cv2 t video_path output_dir k mf rw).2
    in Hj by (by rewrite Hrun).
  split; [by apply run_emitted in Hj as [-> _]|].
  destruct (run_selected cv2 t video_path output_dir k mf rw j
              p img Hk Hj) as (t0 & v0 & g & Hdir0 & Hv0 & Hg & Hr).
  assert (t0 = t') by congruence. subst t0.
  assert (v0 = v) by congruence. subst v0.
  congruence.
Qed.

(** X3.  A stride of zero is not rejected up front: the directory is
    made and the video opened, then [total_frames // frame_interval]
    raises [ZeroDivisionError], before any frame is decoded or
    written. *)
Theorem zero_stride_raises mf rw t' v :
  mkdir_parents images_path t = Ok t' ->
  cv_open cv2 t' video_path = Some v ->
  run cv2 t video_path output_dir 0 mf rw
  = (Raise (Exc ZeroDivisionError), World t' [] 0).
Proof. intros Hdir Hv. by rewrite run_cases, Hdir, Hv. Qed.

(** X4.  A negative cap is truthy and already reached after the first
    emission: when lines 72-75 go through for the frames, the run
    emits exactly one frame (none for an empty stream). *)
Theorem negative_cap_emits_one k N rw t' v :
  0 < k ->
  N < 0 ->
  mkdir_parents images_path t = Ok t' ->
  cv_open cv2 t' video_path = Some v ->
  forallb (resizable cv2 rw (frame_width v) (frame_height v))
    (frames v) = true ->
  exists w',
    run cv2 t video_path output_dir k (Some N) rw
      = (Ok images_path, w')
    /\ Z.of_nat (length (emitted w'))
       = Z.min 1 (Z.of_nat (length (frames v))).
Proof.
  intros Hk HN Hdir Hv Hres.
  destruct (run_count cv2 t video_path output_dir k (Some N) rw t' v
              Hk Hdir Hv Hres) as (w' & Hrun & Hcnt).
  exists w'. split; [done|]. rewrite Hcnt. unfold budget. simpl.
  destruct (Z.eqb_spec N 0) as [|_]; [lia|]. simpl.
  destruct (frames v) as [|f fs0]; simpl length.
  - rewrite cdiv_0 by done. lia.
  - pose proof (cdiv_pos k (Z.of_nat (S (length fs0))) Hk ltac:(lia)).
    lia.
Qed.

(** X5.  How far the video is decoded when lines 72-75 go through for
    the frames: without a cap every frame is read; with a cap
    [N >= 1] reading stops with the frame that reaches it, of index
    [(N - 1) * k], so [min(T, (N - 1) * k + 1)] frames are read. *)
Theorem decoded_count k mf rw t' v :
  0 < k ->
  mkdir_parents images_path t = Ok t' ->
  cv_open cv2 t' video_path = Some v ->
  forallb (resizable cv2 rw (frame_width v) (frame_height v))
    (frames v) = true ->
  match mf with Some N => 1 <= N | None => True end ->
  decoded (run cv2 t video_path output_dir k mf rw).2
  = match mf with
    | None => Z.of_nat (length (frames v))
    | Some N => Z.min (Z.of_nat (length (frames v))) ((N - 1) * k + 1)
    end.
Proof.
  intros Hk Hdir Hv Hres Hcap.
  rewrite (run_opened cv2 t video_path output_dir k mf rw t' v
             Hdir Hv ltac:(lia)).
  cbn [snd].
  rewrite (loop_decoded cv2 images_path k mf rw (frame_width v)
             (frame_height v) (frames v) Hk 0 0 (World t' [] 0) Hres).
  simpl. rewrite cdiv_0 by done.
  destruct mf as [N|]; simpl; [|done].
  destruct (Z.eqb_spec N 0) as [|_]; [lia|]. simpl.
  rewrite Z.max_r by lia.
  replace (k * (0 + (N - 0) - 1) + 1) with ((N - 1) * k + 1) by ring.
  lia.
Qed.

(** X6.  Whatever the arguments and the outcome, a call changes
    nothing but frame files of its own output directory: every
    entry whose path is not [<output_dir>/input/frame_<j>.jpg] is
    still there, with the same content. *)
Theorem other_files_untouched k mf rw p e :
  t !! p = Some e ->
  (forall j : nat, p <> images_path ++ [frame_name (Z.of_nat j)]) ->
  fs (run cv2 t video_path output_dir k mf rw).2 !! p = Some e.
Proof.
  intros Hp Hne. rewrite run_cases.
  destruct (mkdir_parents images_path t) as [t'|r] eqn:Hdir; [|done].
  pose proof (mkdir_parents_preserves _ _ _ _ _ Hdir Hp) as Hp'.
  destruct (cv_open cv2 t' video_path) as [v|]; [|done].
  destruct (floordiv (frame_count v) k); [|done].
  cbn [snd]. rewrite loop_fs_frame; [done|].
  intros j. rewrite Z.add_0_l. apply Hne.
Qed.


(** X8.  A resize width of 0 is falsy: the call behaves exactly as
    with no resize width, instead of failing in [cv2.resize]. *)
Theorem resize_zero_is_no_resize k mf :
  run cv2 t video_path output_dir k mf (Some 0)
  = run cv2 t video_path output_dir k mf None.
Proof.
  rewrite !run_cases.
  destruct (mkdir_parents _ t) as [t'|]; [|done].
  destruct (cv_open cv2 t' video_path) as [v|]; [|done].
  destruct (floordiv (frame_count v) k); [|done].
  by rewrite read_loop_resize_zero.
Qed.

End Run.

Lemma selected_frames_witness :
  exists p img f,
    emitted (run stub_cv2 (disk (clip 5 4 6)) ["clip.mp4"] ["data"] 2 None
               None).2 !! 1%nat = Some (p, img)
    /\ frames (clip 5 4 6) !! Z.to_nat (2 * Z.of_nat 1) = Some f
    /\ img = f.
Proof.
  eexists _, _.
  assert (Hj : emitted (run stub_cv2 (disk (clip 5 4 6)) ["clip.mp4"]
                          ["data"] 2 None None).2 !! 1%nat
               = Some (["data"; "input"; "frame_00001.jpg"],
                       solid 4 6 2)) by (vm_compute; reflexivity).
  destruct (selected_frames stub_cv2 (disk (clip 5 4 6)) ["clip.mp4"]
              ["data"] 2 None None 1 _ _ ltac:(lia) Hj)
    as (t' & v & f & Hdir & Hv & Hf & _ & Heq).
  assert (Hm : mkdir_parents (["data"] ++ ["input"]) (disk (clip 5 4 6))
               = Ok made_dirs) by reflexivity.
  assert (Ht : t' = made_dirs) by congruence.
  rewrite Ht in Hv.
  assert (Ho : cv_open stub_cv2 made_dirs ["clip.mp4"]
               = Some (clip 5 4 6)) by reflexivity.
  assert (Hc : v = clip 5 4 6) by congruence.
  rewrite Hc in Hf.
  exists f. split; [exact Hj|]. split; [exact Hf|]. by apply Heq.
Defined.

Lemma multiples_are_emitted_witness :
  exists p img,
    emitted (run stub_cv2 (disk (clip 5 4 6)) ["clip.mp4"] ["data"] 2
               None None).2 !! 1%nat = Some (p, img)
    /\ p = ["data"; "input"] ++ [frame_name (Z.of_nat 1)]
    /\ maybe_resize stub_cv2 None 6 4 (solid 4 6 2) = Ok img.
Proof.
  apply (multiples_are_emitted stub_cv2 (disk (clip 5 4 6)) ["clip.mp4"]
           ["data"] 2 None None made_dirs (clip 5 4 6) 1 (solid 4 6 2));
    [lia | reflexivity | reflexivity | reflexivity | reflexivity
    | reflexivity].
Defined.

Lemma zero_stride_raises_witness :
  run stub_cv2 (disk (clip 5 4 6)) ["clip.mp4"] ["data"] 0 None None
  = (Raise (Exc ZeroDivisionError), World made_dirs [] 0).
Proof.
  apply (zero_stride_raises stub_cv2 (disk (clip 5 4 6)) ["clip.mp4"]
           ["data"] None None made_dirs (clip 5 4 6));
    reflexivity.
Defined.

Lemma negative_cap_emits_one_witness :
  exists w',
    run stub_cv2 (disk (clip 5 4 6)) ["clip.mp4"] ["data"] 2 (Some (-3))
      None = (Ok ["data"; "input"], w')
    /\ Z.of_nat (length (emitted w')) = 1.
Proof.
  apply (negative_cap_emits_one stub_cv2 (disk (clip 5 4 6)) ["clip.mp4"]
           ["data"] 2 (-3) None made_dirs (clip 5 4 6));
    [lia | lia | reflexivity | reflexivity | reflexivity].
Defined.

Lemma decoded_count_witness :
  decoded (run stub_cv2 (disk (clip 5 4 6)) ["clip.mp4"] ["data"] 2
             (Some 2) None).2 = 3.
Proof.
  apply (decoded_count stub_cv2 (disk (clip 5 4 6)) ["clip.mp4"] ["data"]
           2 (Some 2) None made_dirs (clip 5 4 6));
    [lia | reflexivity | reflexivity | reflexivity | simpl; lia].
Defined.

Lemma other_files_untouched_witness :
  fs (run stub_cv2 (disk (clip 5 4 6)) ["clip.mp4"] ["data"] 2 None
        None).2 !! ["clip.mp4"]
  = Some (File (VideoFile (clip 5 4 6))).
Proof.
  apply (other_files_untouched stub_cv2 (disk (clip 5 4 6)) ["clip.mp4"]
           ["data"] 2 None None ["clip.mp4"]);
    [reflexivity | intros j; simpl; discriminate].
Defined.


(** A width that does not fit a C [int] is refused by [cv2.resize]:
    the first selected frame ends the call with an OpenCV error. *)
Example oversized_width_is_refused :
  resizable stub_cv2 (Some (2 ^ 31)) 6 4 (solid 4 6 0) = false
  /\ (run stub_cv2 (disk (clip 5 4 6)) ["clip.mp4"] ["data"] 2 None
        (Some (2 ^ 31))).1 = Raise (Exc cv2_error)
  /\ emitted (run stub_cv2 (disk (clip 5 4 6)) ["clip.mp4"] ["data"] 2
                None (Some (2 ^ 31))).2 = [].
Proof. vm_compute. repeat split. Qed.

(** A frame wider than the JPEG encoder takes is handed to
    [cv2.imwrite] and counted, but no file is left for it. *)
Example frame_above_jpeg_limit_is_not_stored :
  let out := run stub_cv2 (disk (clip 1 4 6)) ["clip.mp4"] ["data"] 1
               None (Some 65501) in
  out.1 = Ok ["data"; "input"]
  /\ map fst (emitted out.2) = [["data"; "input"; "frame_00000.jpg"]]
  /\ fs out.2 !! ["data"; "input"; "frame_00000.jpg"] = None.
Proof. vm_compute. repeat split. Qed.

End SamplerExtra.

(* ===================================================================== *)
(** * The SfM invoker                                                     *)
(* ===================================================================== *)

Module ColmapFacts.
Import FsFacts RunColmap.

Ltac run_M :=
  unfold mbind, M_bind, mret, M_ret, bind, ret, lift, raise, sys_exit,
    gets, modify in *; simpl in *.

Lemma outcome_eta {A S} (x : result A * S) (a : A) :
  x.1 = Ok a -> x = (Ok a, x.2).
Proof. destruct x as [r s]. simpl. by intros ->. Qed.

Section Copy.
Context {C : Type}.
Implicit Types (t : gmap path (entry C)) (src dst : path).

Lemma app_singleton_ne_length src dst (n m : string) :
  length src <> length dst -> src ++ [n] <> dst ++ [m].
Proof.
  intros Hl Heq. apply (f_equal length) in Heq.
  rewrite !List.length_app in Heq. simpl in Heq. lia.
Qed.

Lemma app_singleton_ne_self dst (n : string) : dst <> dst ++ [n].
Proof.
  intros Heq. apply (f_equal length) in Heq.
  rewrite List.length_app in Heq. simpl in Heq. lia.
Qed.

(** One copy: the file lands under its own name. *)
Lemma copy2_into_ok t src name dst t' :
  copy2_into t (src ++ [name]) name dst = Ok t' ->
  exists c, t !! (src ++ [name]) = Some (File c)
            /\ t' = <[dst ++ [name] := File c]> t.
Proof.
  unfold copy2_into. rewrite stat_app.
  destruct (t !! (src ++ [name])) as [[c|]|]; try done.
  unfold write. destruct (dst ++ [name]) eqn:Hd; [by destruct dst|].
  rewrite <- Hd. clear Hd.
  destruct (stat t (removelast (dst ++ [name]))) as [[?|]|]; try done.
  destruct (t !! (dst ++ [name])) as [[?|]|]; try done;
    intros [= <-]; by exists c.
Qed.

Lemma copy2_into_succeeds t src name dst c :
  t !! (src ++ [name]) = Some (File c) ->
  stat t dst = Some Dir ->
  t !! (dst ++ [name]) <> Some Dir ->
  copy2_into t (src ++ [name]) name dst
    = Ok (<[dst ++ [name] := File c]> t).
Proof.
  intros Hs Hd Hn. unfold copy2_into. rewrite stat_app, Hs.
  unfold write. destruct (dst ++ [name]) eqn:Hdn; [by destruct dst|].
  rewrite <- Hdn in *. clear Hdn.
  rewrite removelast_last, Hd.
  by destruct (t !! (dst ++ [name])) as [[?|]|].
Qed.

(** The copy loop, when it ends normally: the target is still a
    directory, every listed file has its copy, and nothing else
    changed. *)
Lemma copy_each_ok src dst names : length src <> length dst ->
  forall t t',
    copy_each src dst names t = (Ok tt, t') ->
    (forall q, (forall n, n ∈ names -> q <> dst ++ [n]) ->
               t' !! q = t !! q)
    /\ (forall n c, n ∈ names -> t !! (src ++ [n]) = Some (File c) ->
                    t' !! (dst ++ [n]) = Some (File c)).
Proof.
  intros Hlen. induction names as [|n0 rest IH]; intros t t' Hrun.
  - simpl in Hrun. run_M. inversion Hrun; subst. split; [done|].
    intros n c Hn. by apply elem_of_nil in Hn.
  - simpl in Hrun. run_M.
    destruct (copy2_into t (src ++ [n0]) n0 dst) as [t1|] eqn:Hcp;
      [|done].
    apply copy2_into_ok in Hcp as (c0 & Hc0 & ->).
    destruct (IH _ _ Hrun) as [Hframe Hcopied]. split.
    + intros q Hq. rewrite Hframe.
      * apply lookup_insert_ne. intros <-. apply (Hq n0); [by left|done].
      * intros n Hn. apply Hq. by right.
    + intros n c Hn Hsrc.
      destruct (decide (n ∈ rest)) as [Hin|Hnin].
      * apply Hcopied; [done|]. rewrite lookup_insert_ne; [done|].
        apply not_eq_sym. by apply app_singleton_ne_length.
      * apply elem_of_cons in Hn as [->|Hn]; [|done].
        rewrite Hframe.
        -- rewrite lookup_insert_eq. congruence.
        -- intros m Hm Heq. apply app_inj_tail in Heq as [_ ->]. done.
Qed.

(** The copy loop ends normally when every listed entry is a regular
    file and no directory is in the way. *)
Lemma copy_each_succeeds src dst names : length src <> length dst ->
  forall t,
    stat t dst = Some Dir ->
    (forall n, n ∈ names -> exists c, t !! (src ++ [n]) = Some (File c)) ->
    (forall n, t !! (dst ++ [n]) <> Some Dir) ->
    exists t', copy_each src dst names t = (Ok tt, t').
Proof.
  intros Hlen. induction names as [|n0 rest IH]; intros t Hd Hfiles Hfree.
  - by exists t.
  - simpl. run_M.
    destruct (Hfiles n0 ltac:(left)) as [c0 Hc0].
    rewrite (copy2_into_succeeds t src n0 dst c0 Hc0 Hd (Hfree n0)).
    apply IH.
    + destruct dst; [done|]. simpl in *.
      rewrite lookup_insert_ne; [done|].
      apply not_eq_sym, (app_singleton_ne_self (s :: dst)).
    + intros n Hn. destruct (Hfiles n ltac:(by right)) as [c Hc].
      exists c. rewrite lookup_insert_ne; [done|].
      apply not_eq_sym. by apply app_singleton_ne_length.
    + intros n. rewrite lookup_insert. case_decide; [done|apply Hfree].
Qed.

End Copy.

(** ** The check of the result *)

Section ResultCheck.
Context {C : Type}.
Variable data_dir : path.
Implicit Types t : gmap path (entry C).

Local Abbreviation sparse_path := (data_dir ++ ["sparse"; "0"]).
Local Abbreviation src_sparse :=
  ((data_dir ++ ["distorted"; "sparse"]) ++ ["0"]).

Lemma sparse_src_length : length src_sparse <> length sparse_path.
Proof. rewrite !List.length_app. simpl. lia. Qed.

Lemma sparse_nonempty : sparse_path <> [].
Proof. by destruct data_dir. Qed.

Lemma sparse_child_ne_self (n : string) : sparse_path <> sparse_path ++ [n].
Proof. apply app_singleton_ne_self. Qed.

Lemma exists_sparse t :
  exists_ t sparse_path = true <-> is_Some (t !! sparse_path).
Proof.
  unfold exists_. rewrite (stat_nonempty _ _ sparse_nonempty).
  destruct (t !! sparse_path); split; intros H; done.
Qed.

(** A model that is in place is left alone. *)
Lemma check_result_found t :
  exists_ t sparse_path = true -> check_result data_dir t = (Ok tt, t).
Proof. intros H. unfold check_result. run_M. by rewrite H. Qed.

(** A missing model directory is created and filled from
    [distorted/sparse/0]. *)
Lemma check_result_repaired t4 t' :
  exists_ t4 sparse_path = false ->
  check_result data_dir t4 = (Ok tt, t') ->
  t' !! sparse_path = Some Dir
  /\ (exists_ t4 src_sparse = true ->
      forall n c, t4 !! (src_sparse ++ [n]) = Some (File c) ->
                  t' !! (sparse_path ++ [n]) = Some (File c)).
Proof.
  intros Habs. unfold check_result, mkdir, listdir. run_M. rewrite Habs.
  destruct (mkdir_parents sparse_path t4) as [t5|] eqn:Hmk; [simpl|done].
  pose proof (mkdir_parents_dir _ _ _ Hmk sparse_nonempty) as Hdir.
  destruct (exists_ t5 src_sparse) eqn:Hsrc.
  - destruct (iterdir t5 src_sparse) as [names|] eqn:Hls; [simpl|done].
    intros Hcp.
    destruct (copy_each_ok _ _ names sparse_src_length _ _ Hcp)
      as [Hframe Hcopied].
    split.
    + rewrite Hframe; [done|]. intros n _. apply sparse_child_ne_self.
    + intros _ n c Hn.
      pose proof (mkdir_parents_preserves _ _ _ _ _ Hmk Hn) as Hn5.
      apply Hcopied; [|done].
      apply (iterdir_elem _ _ _ _ Hls). by eexists.
  - intros [= <-]. split; [done|]. intros Hsrc4. exfalso.
    unfold exists_ in Hsrc, Hsrc4. rewrite stat_app in Hsrc, Hsrc4.
    destruct (t4 !! src_sparse) as [e|] eqn:He; [|done].
    by rewrite (mkdir_parents_preserves _ _ _ _ _ Hmk He) in Hsrc.
Qed.

(** The repair goes through when the model directory can be made and
    [distorted/sparse/0], if there, holds regular files only. *)
Lemma check_result_succeeds t4 t5 :
  exists_ t4 sparse_path = false ->
  mkdir_parents sparse_path t4 = Ok t5 ->
  (forall n, t4 !! (sparse_path ++ [n]) = None) ->
  (forall c, t4 !! src_sparse <> Some (File c)) ->
  (forall n e, t4 !! (src_sparse ++ [n]) = Some e -> exists c, e = File c) ->
  exists t', check_result data_dir t4 = (Ok tt, t').
Proof.
  intros Habs Hmk Hfree Hsrc Hfiles.
  unfold check_result, mkdir, listdir. run_M. rewrite Habs, Hmk. simpl.
  pose proof (mkdir_parents_dir _ _ _ Hmk sparse_nonempty) as Hdir.
  assert (Hlong : forall p (n : string),
            (length sparse_path <= length p)%nat ->
            t5 !! (p ++ [n]) = t4 !! (p ++ [n])).
  { intros p n Hp. apply (mkdir_parents_longer _ _ _ _ Hmk).
    rewrite (List.length_app p). simpl. lia. }
  assert (Hlen : (length sparse_path <= length src_sparse)%nat)
    by (rewrite !List.length_app; simpl; lia).
  destruct (exists_ t5 src_sparse) eqn:Hex; [|by eexists].
  unfold iterdir. unfold exists_ in Hex.
  destruct (stat t5 src_sparse) as [[c|]|] eqn:Hst; [|clear Hex|done].
  - exfalso. rewrite stat_app in Hst.
    apply (mkdir_parents_file _ _ _ _ _ Hmk) in Hst. by apply (Hsrc c).
  - simpl. apply copy_each_succeeds.
    + apply sparse_src_length.
    + by rewrite (stat_nonempty _ _ sparse_nonempty).
    + intros n Hn. apply list_elem_of_omap in Hn as ([k e] & Hin & Hk).
      apply elem_of_map_to_list in Hin. simpl in Hk.
      apply child_name_spec in Hk. subst k.
      rewrite (Hlong _ n Hlen) in Hin.
      destruct (Hfiles n e Hin) as [c ->].
      exists c. by rewrite (Hlong _ n Hlen).
    + intros n. by rewrite (Hlong _ n (Nat.le_refl _)), Hfree.
Qed.

End ResultCheck.

End ColmapFacts.

Module ColmapSpec.
Import FsFacts RunColmap ColmapFacts.

(** C5, as stated, fails: with a tool that exits 0 at each of the four
    steps without writing a model, the invoker completes normally and
    leaves [sparse/0] in place but empty. *)
Lemma sparse_model_may_be_empty :
  let out := run_colmap_preprocessing tool_noop ["data"] "colmap" true
               "SIMPLE_RADIAL" workspace in
  out.1 = Ok tt
  /\ exists_ out.2 ["data"; "sparse"; "0"] = true
  /\ iterdir out.2 ["data"; "sparse"; "0"] = Ok [].
Proof. vm_compute. done. Qed.

Section Invoker.
Context {C : Type}.
Variable subprocess_run :
  list string -> gmap path (entry C) -> result Z * gmap path (entry C).
Variables (data_dir : path) (colmap_path : string) (use_gpu : bool)
  (camera_model : string).

Local Abbreviation sparse_path := (data_dir ++ ["sparse"; "0"]).
Local Abbreviation src_sparse :=
  (data_dir ++ ["distorted"; "sparse"; "0"]).
Local Abbreviation invoke :=
  (run_colmap_preprocessing subprocess_run data_dir colmap_path use_gpu
     camera_model).

(** C5 (amended).  Let [t4] be the filesystem after the four SfM steps
    succeeded.  Whenever the invoker then completes normally, [sparse/0]
    exists; if it was absent in [t4] it is now a directory and, when
    [distorted/sparse/0] exists, holds a copy of every regular file of
    that directory (so it is non-empty as soon as that directory holds
    a file).  The absence is repaired, not treated as a failure: the
    invoker does complete when [sparse/0] can be created and
    [distorted/sparse/0] is missing or a directory of regular files. *)
Theorem sparse_model_normalized t t4 :
  sfm_steps subprocess_run data_dir colmap_path use_gpu camera_model t
    = (Ok tt, t4) ->
  (forall t', invoke t = (Ok tt, t') ->
     exists_ t' sparse_path = true
     /\ (exists_ t4 sparse_path = false ->
         t' !! sparse_path = Some Dir
         /\ (exists_ t4 src_sparse = true ->
             forall n c, t4 !! (src_sparse ++ [n]) = Some (File c) ->
                         t' !! (sparse_path ++ [n]) = Some (File c))))
  /\ (forall t5,
        exists_ t4 sparse_path = false ->
        mkdir_parents sparse_path t4 = Ok t5 ->
        (forall n, t4 !! (sparse_path ++ [n]) = None) ->
        (forall c, t4 !! src_sparse <> Some (File c)) ->
        (forall n e, t4 !! (src_sparse ++ [n]) = Some e ->
                     exists c, e = File c) ->
        exists t', invoke t = (Ok tt, t')).
Proof.
  intros Hsteps.
  assert (Hrun : invoke t = check_result data_dir t4).
  { unfold run_colmap_preprocessing. run_M. by rewrite Hsteps. }
  assert (Hsrc : src_sparse
                 = (data_dir ++ ["distorted"; "sparse"]) ++ ["0"])
    by (by rewrite <- app_assoc).
  rewrite Hrun, Hsrc. split.
  - intros t' Hchk.
    destruct (exists_ t4 sparse_path) eqn:Hex.
    + rewrite (check_result_found _ _ Hex) in Hchk.
      inversion Hchk; subst. by split.
    + destruct (check_result_repaired _ _ _ Hex Hchk) as [Hdir Hcp].
      split; [|done]. apply exists_sparse. by eexists.
  - intros t5. apply check_result_succeeds.
Qed.

End Invoker.

Lemma sparse_model_normalized_witness :
  exists t',
    run_colmap_preprocessing tool_mapper_only ["data"] "colmap" true
      "SIMPLE_RADIAL" workspace = (Ok tt, t')
    /\ exists_ t' (["data"] ++ ["sparse"; "0"]) = true
    /\ t' !! ((["data"] ++ ["sparse"; "0"]) ++ ["cameras.bin"])
       = Some (File "cameras").
Proof.
  assert (Hs : (sfm_steps tool_mapper_only ["data"] "colmap" true
                  "SIMPLE_RADIAL" workspace).1 = Ok tt)
    by (vm_compute; reflexivity).
  assert (Hr : (run_colmap_preprocessing tool_mapper_only ["data"]
                  "colmap" true "SIMPLE_RADIAL" workspace).1 = Ok tt)
    by (vm_compute; reflexivity).
  pose proof (sparse_model_normalized tool_mapper_only ["data"] "colmap"
                true "SIMPLE_RADIAL" workspace _ (outcome_eta _ tt Hs))
    as [Hpost _].
  eexists. split; [exact (outcome_eta _ tt Hr)|].
  destruct (Hpost _ (outcome_eta _ tt Hr)) as [Hex Hrep].
  split; [exact Hex|].
  destruct Hrep as [Hdir Hcp]; [vm_compute; reflexivity|].
  apply Hcp; vm_compute; reflexivity.
Defined.

End ColmapSpec.

(* ===================================================================== *)
(** * More on the SfM invoker                                             *)
(* ===================================================================== *)

Module ColmapMoreFacts.
Import FsFacts RunColmap ColmapFacts.

Section Copy.
Context {C : Type}.
Implicit Types (t : gmap path (entry C)) (src dst : path).

(** Whatever its outcome, the copy loop writes only to names inside
    the target directory. *)
Lemma copy_each_frame src dst names : forall t q,
  (forall n, q <> dst ++ [n]) ->
  (copy_each src dst names t).2 !! q = t !! q.
Proof.
  induction names as [|n0 rest IH]; intros t q Hq; [done|].
  simpl. run_M.
  destruct (copy2_into t (src ++ [n0]) n0 dst) as [t1|] eqn:Hcp;
    [|done].
  apply copy2_into_ok in Hcp as (c0 & Hc0 & ->).
  rewrite IH by done. apply lookup_insert_ne. intros <-. by apply (Hq n0).
Qed.

End Copy.

Section Steps.
Context {C : Type}.
Variable subprocess_run :
  list string -> gmap path (entry C) -> result Z * gmap path (entry C).
Variables (data_dir : path) (colmap_path : string) (use_gpu : bool)
  (camera_model : string).

Local Abbreviation images_path := (data_dir ++ ["input"]).
Local Abbreviation distorted_path :=
  (data_dir ++ ["distorted"; "sparse"]).
Local Abbreviation database_path :=
  (data_dir ++ ["distorted"; "database.db"]).

(** The steps, unfolded to a chain of four commands. *)
Lemma sfm_steps_cases t :
  sfm_steps subprocess_run data_dir colmap_path use_gpu camera_model t
  = if negb (exists_ t images_path) then (Raise (SystemExit 1), t)
    else
      match mkdir_parents distorted_path t with
      | Raise r => (Raise r, t)
      | Ok t0 =>
        match subprocess_run
                (feature_extractor_cmd colmap_path database_path
                   images_path camera_model) t0 with
        | (Raise r, t1) => (Raise r, t1)
        | (Ok rc1, t1) =>
          if negb (rc1 =? 0) then (Raise (SystemExit 1), t1) else
          match subprocess_run
                  (exhaustive_matcher_cmd colmap_path database_path)
                  t1 with
          | (Raise r, t2) => (Raise r, t2)
          | (Ok rc2, t2) =>
            if negb (rc2 =? 0) then (Raise (SystemExit 1), t2) else
            match subprocess_run
                    (mapper_cmd colmap_path database_path images_path
                       distorted_path) t2 with
            | (Raise r, t3) => (Raise r, t3)
            | (Ok rc3, t3) =>
              if negb (rc3 =? 0) then (Raise (SystemExit 1), t3) else
              match subprocess_run
                      (image_undistorter_cmd colmap_path images_path
                         distorted_path data_dir) t3 with
              | (Raise r, t4) => (Raise r, t4)
              | (Ok rc4, t4) =>
                if negb (rc4 =? 0) then (Raise (SystemExit 1), t4)
                else (Ok tt, t4)
              end
            end
          end
        end
      end.
Proof.
  unfold sfm_steps, run_command, mkdir. run_M.
  destruct (exists_ t images_path); simpl; [|done].
  destruct (mkdir_parents distorted_path t) as [t0|]; simpl; [|done].
  destruct (subprocess_run _ t0) as [[rc1|] t1]; simpl; [|done].
  destruct (rc1 =? 0); simpl; [|done].
  destruct (subprocess_run _ t1) as [[rc2|] t2]; simpl; [|done].
  destruct (rc2 =? 0); simpl; [|done].
  destruct (subprocess_run _ t2) as [[rc3|] t3]; simpl; [|done].
  destruct (rc3 =? 0); simpl; [|done].
  destruct (subprocess_run _ t3) as [[rc4|] t4]; simpl; [|done].
  by destruct (rc4 =? 0).
Qed.

Lemma run_after_steps t :
  run_colmap_preprocessing subprocess_run data_dir colmap_path use_gpu
    camera_model t
  = match sfm_steps subprocess_run data_dir colmap_path use_gpu
            camera_model t with
    | (Ok _, t4) => check_result data_dir t4
    | (Raise r, t') => (Raise r, t')
    end.
Proof.
  unfold run_colmap_preprocessing. run_M.
  by destruct (sfm_steps _ _ _ _ _ t) as [[[]|] t4].
Qed.

End Steps.

End ColmapMoreFacts.

Module ColmapExtra.
Import FsFacts RunColmap ColmapFacts ColmapMoreFacts Samples.

Section Invoker.
Context {C : Type}.
Variable subprocess_run :
  list string -> gmap path (entry C) -> result Z * gmap path (entry C).
Variables (data_dir : path) (colmap_path : string) (use_gpu : bool)
  (camera_model : string).

Local Abbreviation images_path := (data_dir ++ ["input"]).
Local Abbreviation distorted_path :=
  (data_dir ++ ["distorted"; "sparse"]).
Local Abbreviation database_path :=
  (data_dir ++ ["distorted"; "database.db"]).
Local Abbreviation sparse_path := (data_dir ++ ["sparse"; "0"]).
Local Abbreviation invoke :=
  (run_colmap_preprocessing subprocess_run data_dir colmap_path use_gpu
     camera_model).
Local Abbreviation steps :=
  (sfm_steps subprocess_run data_dir colmap_path use_gpu camera_model).
Local Abbreviation fe :=
  (feature_extractor_cmd colmap_path database_path images_path
     camera_model).
Local Abbreviation em :=
  (exhaustive_matcher_cmd colmap_path database_path).
Local Abbreviation mp :=
  (mapper_cmd colmap_path database_path images_path distorted_path).
Local Abbreviation ud :=
  (image_undistorter_cmd colmap_path images_path distorted_path
     data_dir).

(** X9.  Without the [input] directory the invoker exits with status 1
    at once: whatever the tool would do, the filesystem is left as it
    was (no working directory is made, no command is run). *)
Theorem missing_input_exits t :
  exists_ t images_path = false ->
  invoke t = (Raise (SystemExit 1), t).
Proof.
  intros Hin. rewrite run_after_steps, sfm_steps_cases. by rewrite Hin.
Qed.

(** X10.  The four steps succeed exactly when the input directory
    exists, the working directory can be made, and feature
    extraction, matching, mapping and undistortion, run in this order
    each on the filesystem the previous one left, all return 0. *)
Theorem steps_succeed_iff t t4 :
  steps t = (Ok tt, t4)
  <-> exists_ t images_path = true
      /\ exists t0 t1 t2 t3,
           mkdir_parents distorted_path t = Ok t0
           /\ subprocess_run fe t0 = (Ok 0, t1)
           /\ subprocess_run em t1 = (Ok 0, t2)
           /\ subprocess_run mp t2 = (Ok 0, t3)
           /\ subprocess_run ud t3 = (Ok 0, t4).
Proof.
  rewrite sfm_steps_cases. split.
  - destruct (exists_ t images_path); simpl; [|done].
    destruct (mkdir_parents distorted_path t) as [t0|]; [|done].
    destruct (subprocess_run fe t0) as [[rc1|] t1] eqn:H1; [|done].
    destruct (Z.eqb_spec rc1 0) as [->|]; simpl; [|done].
    destruct (subprocess_run em t1) as [[rc2|] t2] eqn:H2; [|done].
    destruct (Z.eqb_spec rc2 0) as [->|]; simpl; [|done].
    destruct (subprocess_run mp t2) as [[rc3|] t3] eqn:H3; [|done].
    destruct (Z.eqb_spec rc3 0) as [->|]; simpl; [|done].
    destruct (subprocess_run ud t3) as [[rc4|] t4'] eqn:H4; [|done].
    destruct (Z.eqb_spec rc4 0) as [->|]; simpl; [|done].
    intros [= <-]. split; [done|]. by exists t0, t1, t2, t3.
  - intros (Hin & t0 & t1 & t2 & t3 & Hmk & H1 & H2 & H3 & H4).
    by rewrite Hin, Hmk, H1, H2, H3, H4.
Qed.

(** X11.  The first command that returns a non-zero code ends the
    invoker with exit status 1, on the filesystem that command left:
    no later command runs and the result is not checked. *)
Theorem failing_step_exits t t0 t' :
  exists_ t images_path = true ->
  mkdir_parents distorted_path t = Ok t0 ->
  ((exists rc, subprocess_run fe t0 = (Ok rc, t') /\ rc <> 0)
   \/ (exists t1 rc,
         subprocess_run fe t0 = (Ok 0, t1)
         /\ subprocess_run em t1 = (Ok rc, t') /\ rc <> 0)
   \/ (exists t1 t2 rc,
         subprocess_run fe t0 = (Ok 0, t1)
         /\ subprocess_run em t1 = (Ok 0, t2)
         /\ subprocess_run mp t2 = (Ok rc, t') /\ rc <> 0)
   \/ (exists t1 t2 t3 rc,
         subprocess_run fe t0 = (Ok 0, t1)
         /\ subprocess_run em t1 = (Ok 0, t2)
         /\ subprocess_run mp t2 = (Ok 0, t3)
         /\ subprocess_run ud t3 = (Ok rc, t') /\ rc <> 0)) ->
  invoke t = (Raise (SystemExit 1), t').
Proof.
  intros Hin Hmk Hfail.
  rewrite run_after_steps, sfm_steps_cases, Hin, Hmk. simpl.
  destruct Hfail as [(rc & H1 & Hrc)
                    |[(t1 & rc & H1 & H2 & Hrc)
                     |[(t1 & t2 & rc & H1 & H2 & H3 & Hrc)
                      |(t1 & t2 & t3 & rc & H1 & H2 & H3 & H4 & Hrc)]]].
  - rewrite H1. by destruct (Z.eqb_spec rc 0).
  - rewrite H1. simpl. rewrite H2. by destruct (Z.eqb_spec rc 0).
  - rewrite H1. simpl. rewrite H2. simpl. rewrite H3.
    by destruct (Z.eqb_spec rc 0).
  - rewrite H1. simpl. rewrite H2. simpl. rewrite H3. simpl. rewrite H4.
    by destruct (Z.eqb_spec rc 0).
Qed.

(** X12.  After the four steps the invoker only adds: whatever its
    outcome, every entry present after the steps whose path is not a
    name directly inside [sparse/0] is still there unchanged; the
    model files in [distorted/sparse/0] are copied, not moved. *)
Theorem check_only_adds t t4 q e :
  steps t = (Ok tt, t4) ->
  t4 !! q = Some e ->
  (forall n, q <> sparse_path ++ [n]) ->
  (run_colmap_preprocessing subprocess_run data_dir colmap_path use_gpu
     camera_model t).2 !! q = Some e.
Proof.
  intros Hsteps Hq Hne. rewrite run_after_steps, Hsteps.
  unfold check_result, mkdir, listdir. run_M.
  destruct (exists_ t4 sparse_path); [done|].
  destruct (mkdir_parents sparse_path t4) as [t5|] eqn:Hmk; [simpl|done].
  pose proof (mkdir_parents_preserves _ _ _ _ _ Hmk Hq) as Hq5.
  destruct (exists_ t5 _); [|done].
  destruct (iterdir t5 _) as [names|]; [simpl|done].
  by rewrite copy_each_frame.
Qed.

(** X13.  The check of the result is idempotent: once it has gone
    through, going through it again changes nothing. *)
Theorem check_result_idempotent (t4 t' : gmap path (entry C)) :
  check_result data_dir t4 = (Ok tt, t') ->
  check_result data_dir t' = (Ok tt, t').
Proof.
  intros Hchk. apply check_result_found.
  destruct (exists_ t4 sparse_path) eqn:Hex.
  - rewrite (check_result_found _ _ Hex) in Hchk. by inversion Hchk; subst.
  - destruct (check_result_repaired _ _ _ Hex Hchk) as [Hdir _].
    apply exists_sparse. by eexists.
Qed.

End Invoker.


Lemma missing_input_exits_witness :
  run_colmap_preprocessing tool_mapper_only ["data"] "colmap" true
    "SIMPLE_RADIAL" {[ ["data"] := Dir ]}
  = (Raise (SystemExit 1), {[ ["data"] := Dir ]}).
Proof.
  apply (missing_input_exits tool_mapper_only ["data"] "colmap" true
           "SIMPLE_RADIAL" {[ ["data"] := Dir ]}).
  vm_compute. reflexivity.
Defined.

Lemma failing_step_exits_witness :
  run_colmap_preprocessing tool_matcher_fails ["data"] "colmap" true
    "SIMPLE_RADIAL" workspace
  = (Raise (SystemExit 1), workspace_dirs).
Proof.
  apply (failing_step_exits tool_matcher_fails ["data"] "colmap" true
           "SIMPLE_RADIAL" workspace workspace_dirs workspace_dirs).
  - vm_compute. reflexivity.
  - reflexivity.
  - right. left. exists workspace_dirs, 1.
    split; [reflexivity|]. split; [reflexivity|lia].
Defined.

Lemma check_only_adds_witness :
  (run_colmap_preprocessing tool_mapper_only ["data"] "colmap" true
     "SIMPLE_RADIAL" workspace).2
    !! ["data"; "distorted"; "sparse"; "0"; "cameras.bin"]
  = Some (File "cameras").
Proof.
  assert (Hs : (sfm_steps tool_mapper_only ["data"] "colmap" true
                  "SIMPLE_RADIAL" workspace).1 = Ok tt)
    by (vm_compute; reflexivity).
  apply (check_only_adds tool_mapper_only ["data"] "colmap" true
           "SIMPLE_RADIAL" workspace _
           ["data"; "distorted"; "sparse"; "0"; "cameras.bin"]
           (File "cameras") (outcome_eta _ tt Hs)).
  - vm_compute. reflexivity.
  - intros n. simpl. discriminate.
Defined.

Lemma check_result_idempotent_witness :
  check_result ["data"]
    (check_result ["data"]
       (sfm_steps tool_mapper_only ["data"] "colmap" true "SIMPLE_RADIAL"
          workspace).2).2
  = (Ok tt,
     (check_result ["data"]
        (sfm_steps tool_mapper_only ["data"] "colmap" true "SIMPLE_RADIAL"
           workspace).2).2).
Proof.
  assert (Hc : (check_result ["data"]
                  (sfm_steps tool_mapper_only ["data"] "colmap" true
                     "SIMPLE_RADIAL" workspace).2).1 = Ok tt)
    by (vm_compute; reflexivity).
  apply (check_result_idempotent ["data"] _ _ (outcome_eta _ tt Hc)).
Defined.

End ColmapExtra.

(* ===================================================================== *)
(** * The masking bridge                                                  *)
(* ===================================================================== *)

Module BridgeFacts.
Import AutoMaskBridge.

Ltac run_M :=
  unfold emit, call, try_except in *;
  unfold mbind, M_bind, mret, M_ret, bind, ret, lift, raise, sys_exit,
    gets, modify in *; simpl in *.

Section Bridge.
Context {box : Type}.
Variable predict : string -> path -> exception + list box.
Variable imread : path -> option image.
Variable sam : path -> list box -> exception + option (list mask).
Variable interp : kernel bool.

Local Abbreviation body := (process_one predict imread sam interp).
Local Abbreviation turn := (events_of predict imread sam interp).
Local Abbreviation loop := (for_files predict imread sam interp).

(** ** The union of the masks *)

(** Only OpenCV can fail here. *)
Lemma union_masks_raise masks : forall acc r,
  union_masks interp masks acc = Raise r -> r = Exc cv2_error.
Proof.
  induction masks as [|m rest IH]; intros acc r H; simpl in H; [done|].
  destruct (fit interp acc m) as [m'|r'] eqn:Hfit; [by eapply IH|].
  inversion H; subst. unfold fit, resize in Hfit.
  destruct (negb (same_shape m acc)); [|done].
  by destruct ((0 <? cols acc) && (0 <? rows acc) && (0 <? rows m)
               && (0 <? cols m)); inversion Hfit.
Qed.

(** On non-empty arrays the loop over the masks ends normally with the
    OR of the accumulator and the fitted masks. *)
Lemma union_masks_spec img masks : nonempty img = true ->
  forallb nonempty masks = true ->
  forall acc, rows acc = rows img -> cols acc = cols img ->
  exists combined,
    union_masks interp masks acc = Ok combined
    /\ rows combined = rows img /\ cols combined = cols img
    /\ forall r c, at_ combined r c
                   = at_ acc r c || unioned interp img masks r c.
Proof.
  intros Himg. unfold nonempty in Himg.
  apply andb_true_iff in Himg as [Hr Hc].
  induction masks as [|m rest IH]; intros Hall acc Hrows Hcols.
  - exists acc. simpl. repeat split; try done.
    intros r c. by rewrite orb_false_r.
  - simpl in Hall. apply andb_true_iff in Hall as [Hm Hall].
    unfold nonempty in Hm. apply andb_true_iff in Hm as [Hmr Hmc].
    assert (Hfit : fit interp acc m = Ok (fitted interp img m)).
    { unfold fit, fitted, same_shape, resize. simpl.
      rewrite Hrows, Hcols.
      destruct ((rows m =? rows img) && (cols m =? cols img)); simpl;
        [done|].
      by rewrite Hc, Hr, Hmr, Hmc. }
    simpl. rewrite Hfit.
    destruct (IH Hall (ior acc (fitted interp img m)) Hrows Hcols)
      as (combined & Hrun & Hcr & Hcc & Hat).
    exists combined. repeat split; try done.
    intros r c. rewrite Hat. simpl. by rewrite orb_assoc.
Qed.

(** ** One turn of the loop *)

(** The body only appends to the log, and what it appends does not
    depend on what is there. *)
Lemma process_one_log prompt od i total file s :
  body prompt od i total file s
  = ((body prompt od i total file []).1,
     s ++ (body prompt od i total file []).2).
Proof.
  unfold process_one. run_M.
  destruct (predict prompt file) as [e|boxes]; simpl;
    [by rewrite app_nil_r|].
  destruct (imread file) as [img|]; simpl; [|by rewrite app_nil_r].
  destruct (length boxes =? 0)%nat; simpl; [by rewrite <- app_assoc|].
  destruct (sam file boxes) as [e|seg]; simpl; [by rewrite app_nil_r|].
  destruct (match seg with
            | Some data => union_masks interp data (zeros_mask img)
            | None => Ok (zeros_mask img)
            end) as [combined|r]; simpl;
    [by rewrite <- app_assoc|by rewrite app_nil_r].
Qed.

(** The body never leaves through [sys.exit]. *)
Lemma process_one_no_exit prompt od i total file s code :
  (body prompt od i total file s).1 <> Raise (SystemExit code).
Proof.
  unfold process_one. run_M.
  destruct (predict prompt file) as [e|boxes]; simpl; [done|].
  destruct (imread file) as [img|]; simpl; [|done].
  destruct (length boxes =? 0)%nat; simpl; [done|].
  destruct (sam file boxes) as [e|seg]; simpl; [done|].
  destruct (match seg with
            | Some data => union_masks interp data (zeros_mask img)
            | None => Ok (zeros_mask img)
            end) as [combined|r] eqn:Hu; simpl; [done|].
  destruct seg as [data|]; [|done].
  by rewrite (union_masks_raise _ _ _ Hu).
Qed.

(** A turn, guarded by the [try], always ends normally and appends its
    events. *)
Lemma turn_log prompt od i total file s :
  try_except (body prompt od i total file)
    (fun e => emit (Print_error (name file) e)) s
  = (Ok tt, s ++ turn prompt od total i file).
Proof.
  unfold events_of, try_except.
  rewrite (process_one_log prompt od i total file s).
  pose proof (process_one_no_exit prompt od i total file []) as Hne.
  destruct (body prompt od i total file []) as [[[]|[e|code]] l]; simpl.
  - done.
  - unfold emit, modify. by rewrite app_assoc.
  - by destruct (Hne code).
Qed.

(** ** The loop *)

Lemma for_files_log prompt od total files : forall i s,
  loop prompt od total i files s
  = (Ok tt,
     s ++ concat (imap (fun j f => turn prompt od total (i + j) f) files)).
Proof.
  induction files as [|f rest IH]; intros i s.
  - simpl. by rewrite app_nil_r.
  - cbn [for_files]. unfold mbind, M_bind, bind.
    rewrite turn_log, IH. simpl. rewrite Nat.add_0_r, <- app_assoc.
    do 4 f_equal. apply imap_ext. intros j x _. simpl.
    f_equal. lia.
Qed.

(** What a turn logs is part of the log of the batch. *)
Lemma turn_in_batch prompt od total files (i : nat) file ev :
  files !! i = Some file ->
  ev ∈ turn prompt od total i file ->
  ev ∈ (loop prompt od total 0 files []).2.
Proof.
  intros Hi Hev. rewrite for_files_log. simpl.
  apply list_elem_of_In, in_concat.
  exists (turn prompt od total i file).
  split; [|by apply list_elem_of_In].
  apply list_elem_of_In, list_elem_of_lookup. exists i.
  by rewrite list_lookup_imap, Hi.
Qed.

End Bridge.

End BridgeFacts.

(* ===================================================================== *)
(** * The training invoker                                                *)
(* ===================================================================== *)

Module TrainFacts.
Import FsFacts TrainGaussian.

Ltac run_M :=
  unfold print, run_process, path_exists, listdir in *;
  unfold mbind, M_bind, mret, M_ret, bind, ret, lift, raise, sys_exit,
    gets, modify in *; simpl in *.

Section Training.
Context {C : Type}.
Variable subprocess_run :
  option path -> list string -> gmap path (entry C)
  -> result Z * gmap path (entry C).
Variable executable : string.
Variable st_size : entry C -> Z.

Lemma ply_path_lookup (t : gmap path (entry C)) out it :
  stat t (ply_path out it) = t !! ply_path out it.
Proof. apply stat_nonempty. unfold ply_path. by destruct out. Qed.

(** The report loop prints one line per checkpoint file that is
    there, in the order of the list, and does nothing else. *)
Lemma report_plys_spec out save : forall w : world,
  report_plys st_size out save w
  = (Ok tt,
     World (tfs w)
       (printed w
        ++ omap (fun it =>
                   (fun e => Ply_created (ply_path out it) (st_size e))
                     <$> tfs w !! ply_path out it) save)).
Proof.
  induction save as [|it rest IH]; intros w.
  - simpl. rewrite app_nil_r. by destruct w.
  - cbn [report_plys]. unfold mbind, M_bind, bind.
    rewrite ply_path_lookup. cbn [omap list_omap].
    destruct (tfs w !! ply_path out it) as [e|]; simpl.
    + unfold print, modify. rewrite IH. simpl.
      by rewrite <- app_assoc.
    + by rewrite IH.
Qed.

(** Computations that return normally from every state. *)
Local Abbreviation succeeds m :=
  (forall w : @world C, exists a w', m w = (Ok a, w')).

Lemma succeeds_ret {A} (a : A) : succeeds (mret a : M (@world C) A).
Proof. intros w. by exists a, w. Qed.

Lemma succeeds_bind {A B} (m : M (@world C) A) (f : A -> M (@world C) B) :
  succeeds m -> (forall a, succeeds (f a)) -> succeeds (m ≫= f).
Proof.
  intros Hm Hf w. unfold mbind, M_bind, bind.
  destruct (Hm w) as (a & w1 & ->). apply Hf.
Qed.

Lemma bind_ok {A B} (m : M (@world C) A) (f : A -> M (@world C) B)
    w a w1 :
  m w = (Ok a, w1) -> (m ≫= f) w = f a w1.
Proof. intros H. unfold mbind, M_bind, bind. by rewrite H. Qed.

Lemma succeeds_if {A} (b : bool) (m1 m2 : M (@world C) A) :
  succeeds m1 -> succeeds m2 -> succeeds (if b then m1 else m2).
Proof. by destruct b. Qed.

Lemma succeeds_exists p : succeeds (path_exists p).
Proof. intros w. by eexists _, _. Qed.

Lemma succeeds_run cwd cmd :
  (forall cwd cmd t, exists rc t', subprocess_run cwd cmd t = (Ok rc, t')) ->
  succeeds (run_process subprocess_run cwd cmd).
Proof.
  intros Htool w. unfold run_process.
  destruct (Htool cwd cmd (tfs w)) as (rc & t' & ->). by eexists _, _.
Qed.

End Training.

End TrainFacts.

Module TrainExtra.
Import FsFacts TrainGaussian TrainFacts Samples.

Section Training.
Context {C : Type}.
Variable subprocess_run :
  option path -> list string -> gmap path (entry C)
  -> result Z * gmap path (entry C).
Variable executable : string.
Variable st_size : entry C -> Z.

Local Abbreviation train :=
  (run_training subprocess_run executable st_size).

(** X14.  Without [train.py] in the repository, [run_training] exits
    with status 1 before any process is started: the filesystem is
    left as it was. *)
Theorem training_needs_script source gs out its save res sh (w : world) :
  exists_ (tfs w) (gs ++ ["train.py"]) = false ->
  train source gs out its save res sh w
  = (Raise (SystemExit 1),
     World (tfs w) (printed w ++ [Script_not_found (gs ++ ["train.py"])])).
Proof. intros Hex. unfold run_training. run_M. by rewrite Hex. Qed.

(** X15.  When training returns 0, [run_training] returns normally
    whether or not any checkpoint file exists; it leaves the
    filesystem as training left it, and reports exactly the
    checkpoints of [save_iterations] (by default 7000, 15000, 30000)
    whose [point_cloud.ply] exists, in order, then the final path. *)
Theorem training_reports_existing_plys
    source gs out its save res sh (w : world) t1 :
  let out' := match out with None => source ++ ["output"] | Some p => p end in
  let save' := match save with None => [7000; 15000; 30000] | Some l => l end in
  exists_ (tfs w) (gs ++ ["train.py"]) = true ->
  subprocess_run (Some gs)
    (train_cmd executable (gs ++ ["train.py"]) source out' its save'
       res sh) (tfs w) = (Ok 0, t1) ->
  train source gs out its save res sh w
  = (Ok tt,
     World t1
       (printed w
        ++ omap (fun it =>
                   (fun e => Ply_created (ply_path out' it) (st_size e))
                     <$> t1 !! ply_path out' it) save'
        ++ [Final_ply (ply_path out' its)])).
Proof.
  intros out' save' Hex Hrun. unfold run_training. run_M.
  rewrite Hex. simpl. fold out' save'. rewrite Hrun. simpl.
  rewrite report_plys_spec. simpl. by rewrite <- app_assoc.
Qed.

(** X16.  A non-zero return code of the training process ends
    [run_training] with exit status 1; no checkpoint is reported. *)
Theorem training_failure_exits
    source gs out its save res sh (w : world) rc t1 :
  let out' := match out with None => source ++ ["output"] | Some p => p end in
  let save' := match save with None => [7000; 15000; 30000] | Some l => l end in
  exists_ (tfs w) (gs ++ ["train.py"]) = true ->
  subprocess_run (Some gs)
    (train_cmd executable (gs ++ ["train.py"]) source out' its save'
       res sh) (tfs w) = (Ok rc, t1) ->
  rc <> 0 ->
  train source gs out its save res sh w
  = (Raise (SystemExit 1),
     World t1 (printed w ++ [Training_failed rc])).
Proof.
  intros out' save' Hex Hrun Hrc. unfold run_training. run_M.
  rewrite Hex. simpl. fold out' save'. rewrite Hrun. simpl.
  by destruct (Z.eqb_spec rc 0).
Qed.

Local Abbreviation entry_point :=
  (main subprocess_run executable st_size).

(** X17.  [main] never clones over an existing path: when the
    repository path exists but holds no [train.py] (and [--setup] is
    not given), it says so and exits with status 1 without starting a
    process, with or without [--clone]. *)
Theorem main_keeps_existing_path (a : args) (w : world) :
  setup a = false ->
  exists_ (tfs w) (gs_path a) = true ->
  exists_ (tfs w) (gs_path a ++ ["train.py"]) = false ->
  entry_point a w
  = (Raise (SystemExit 1),
     World (tfs w)
       (printed w ++ [Path_exists (gs_path a); Repo_not_found])).
Proof.
  intros Hsetup Hthere Hrepo.
  unfold main, check_gaussian_splatting_repo. run_M.
  rewrite Hsetup.
  destruct (clone a); simpl; rewrite ?Hrepo; simpl; rewrite Hthere;
    simpl; rewrite Hrepo; simpl; by rewrite <- app_assoc.
Qed.

(** X18.  [main] does not look at the result of the clone: when the
    path is absent and the clone (successful or not) leaves no
    [train.py], the run ends with exit status 1 on the filesystem the
    clone left. *)
Theorem main_after_useless_clone (a : args) (w : world) rc t1 :
  setup a = false ->
  exists_ (tfs w) (gs_path a) = false ->
  exists_ (tfs w) (gs_path a ++ ["train.py"]) = false ->
  subprocess_run None (clone_cmd (gs_path a)) (tfs w) = (Ok rc, t1) ->
  exists_ t1 (gs_path a ++ ["train.py"]) = false ->
  entry_point a w
  = (Raise (SystemExit 1),
     World t1
       (printed w
        ++ [if rc =? 0 then Clone_done else Clone_failed;
            Repo_not_found])).
Proof.
  intros Hsetup Hthere Hrepo Hclone Hrepo1.
  unfold main, check_gaussian_splatting_repo, clone_gaussian_splatting.
  run_M. rewrite Hsetup.
  destruct (clone a); simpl; rewrite ?Hrepo; simpl; rewrite Hthere;
    simpl; rewrite Hclone; simpl;
    destruct (rc =? 0); simpl; rewrite Hrepo1; simpl;
    by rewrite <- app_assoc.
Qed.

(** X19.  [setup_gaussian_splatting] never looks at a return code:
    as long as the processes can be started and [submodules] is not a
    regular file, it returns normally whatever git and pip
    return. *)
Theorem setup_ignores_return_codes gs (w : world) :
  (forall cwd cmd t, exists rc t', subprocess_run cwd cmd t = (Ok rc, t')) ->
  (forall c, tfs w !! (gs ++ ["submodules"]) <> Some (File c)) ->
  exists w', setup_gaussian_splatting subprocess_run executable gs w
             = (Ok tt, w').
Proof.
  intros Htool Hsub.
  assert (Hrun : forall cwd cmd (w0 : @world C), exists a w',
            (run_process subprocess_run cwd cmd;; mret tt) w0
            = (Ok a, w')).
  { intros cwd cmd. apply succeeds_bind; [by apply succeeds_run|].
    intros _. apply succeeds_ret. }
  assert (Hmaybe : forall (b : bool) cwd cmd (w0 : @world C), exists a w',
            (if b then run_process subprocess_run cwd cmd;; mret tt
             else mret tt) w0 = (Ok a, w')).
  { intros b cwd cmd. apply succeeds_if; [apply Hrun|apply succeeds_ret]. }
  assert (Hrest : forall (b : bool) (w0 : @world C), exists a w',
            ((if b then
                run_process subprocess_run (Some gs)
                  ["git"; "submodule"; "update"; "--init"; "--recursive"];;
                mret tt
              else mret tt);;
             found ← path_exists ((gs ++ ["submodules"])
                                  ++ ["diff-gaussian-rasterization"]);
             (if found : bool then
                run_process subprocess_run None
                  (pip_install_cmd executable
                     ((gs ++ ["submodules"])
                      ++ ["diff-gaussian-rasterization"]));; mret tt
              else mret tt);;
             found ← path_exists ((gs ++ ["submodules"])
                                  ++ ["simple-knn"]);
             (if found : bool then
                run_process subprocess_run None
                  (pip_install_cmd executable
                     ((gs ++ ["submodules"]) ++ ["simple-knn"]));;
                mret tt
              else mret tt)) w0 = (Ok a, w')).
  { intros b. apply succeeds_bind; [apply Hmaybe|]. intros _.
    apply succeeds_bind; [apply succeeds_exists|]. intros f1.
    apply succeeds_bind; [apply Hmaybe|]. intros _.
    apply succeeds_bind; [apply succeeds_exists|]. intros f2.
    apply Hmaybe. }
  unfold setup_gaussian_splatting.
  rewrite (bind_ok (path_exists (gs ++ ["submodules"])) _ w
             (exists_ (tfs w) (gs ++ ["submodules"])) w eq_refl).
  destruct (exists_ (tfs w) (gs ++ ["submodules"])) eqn:Hex;
    cbn [negb].
  - unfold exists_ in Hex. rewrite stat_app in Hex.
    destruct (tfs w !! (gs ++ ["submodules"])) as [[c|]|] eqn:Hs;
      [by destruct (Hsub c)| |done].
    assert (Hls : exists b : bool,
              (names ← listdir (gs ++ ["submodules"]);
               mret (match names with [] => true | _ => false end)) w
              = (Ok b, w)).
    { unfold mbind, M_bind, bind, listdir, iterdir.
      rewrite stat_app, Hs. by eexists. }
    destruct Hls as [b Hb]. rewrite (bind_ok _ _ w b w Hb).
    destruct (Hrest b w) as ([] & w' & Hw'). exists w'. exact Hw'.
  - rewrite (bind_ok (mret true) _ w true w eq_refl).
    destruct (Hrest true w) as ([] & w' & Hw'). exists w'. exact Hw'.
Qed.

End Training.

Lemma training_needs_script_witness :
  run_training trainer "python" size_of ["data"] ["gs"] None 30000 None
    (-1) 3 (World nothing [])
  = (Raise (SystemExit 1),
     World nothing ([] ++ [Script_not_found (["gs"] ++ ["train.py"])])).
Proof.
  apply (training_needs_script trainer "python" size_of ["data"] ["gs"]
           None 30000 None (-1) 3 (World nothing [])).
  reflexivity.
Defined.

Lemma training_reports_existing_plys_witness :
  run_training trainer "python" size_of ["data"] ["gs"] None 30000 None
    (-1) 3 (World repo [])
  = (Ok tt,
     World (<[ ply_7000 := File "ply" ]> repo)
       ([] ++ omap (fun it =>
                      (fun e => Ply_created (ply_path (["data"] ++ ["output"]) it)
                                  (size_of e))
                        <$> (<[ ply_7000 := File "ply" ]> repo)
                              !! ply_path (["data"] ++ ["output"]) it)
                [7000; 15000; 30000]
        ++ [Final_ply (ply_path (["data"] ++ ["output"]) 30000)])).
Proof.
  apply (training_reports_existing_plys trainer "python" size_of ["data"]
           ["gs"] None 30000 None (-1) 3 (World repo [])
           (<[ ply_7000 := File "ply" ]> repo));
    [vm_compute; reflexivity | reflexivity].
Defined.

(** The lines printed in that run: one checkpoint of three is there. *)
Example training_report_sample :
  printed (run_training trainer "python" size_of ["data"] ["gs"] None
             30000 None (-1) 3 (World repo [])).2
  = [Ply_created ply_7000 3;
     Final_ply ["data"; "output"; "point_cloud"; "iteration_30000";
                "point_cloud.ply"]].
Proof. vm_compute. reflexivity. Qed.

Lemma training_failure_exits_witness :
  run_training failing "python" size_of ["data"] ["gs"] None 30000 None
    (-1) 3 (World repo [])
  = (Raise (SystemExit 1), World repo ([] ++ [Training_failed 2])).
Proof.
  apply (training_failure_exits failing "python" size_of ["data"] ["gs"]
           None 30000 None (-1) 3 (World repo []) 2 repo);
    [vm_compute; reflexivity | reflexivity | lia].
Defined.

Lemma main_keeps_existing_path_witness :
  main trainer "python" size_of
    (Args ["data"] ["gs"] None 30000 (-1) 3 false true)
    (World bare_dir [])
  = (Raise (SystemExit 1),
     World bare_dir ([] ++ [Path_exists ["gs"]; Repo_not_found])).
Proof.
  apply (main_keeps_existing_path trainer "python" size_of
           (Args ["data"] ["gs"] None 30000 (-1) 3 false true)
           (World bare_dir []));
    [reflexivity | vm_compute; reflexivity | vm_compute; reflexivity].
Defined.

Lemma main_after_useless_clone_witness :
  main failing "python" size_of
    (Args ["data"] ["gs"] None 30000 (-1) 3 false false)
    (World nothing [])
  = (Raise (SystemExit 1),
     World nothing ([] ++ [if 2 =? 0 then Clone_done else Clone_failed;
                     Repo_not_found])).
Proof.
  apply (main_after_useless_clone failing "python" size_of
           (Args ["data"] ["gs"] None 30000 (-1) 3 false false)
           (World nothing []) 2 nothing);
    reflexivity.
Defined.

Lemma setup_ignores_return_codes_witness :
  exists w',
    setup_gaussian_splatting failing "python" ["gs"]
      (World bare_dir [])
    = (Ok tt, w').
Proof.
  apply (setup_ignores_return_codes failing "python" ["gs"]
           (World bare_dir [])).
  - intros cwd cmd t. by exists 2, t.
  - intros c. simpl. unfold bare_dir.
    rewrite lookup_singleton_ne; [done|]. discriminate.
Defined.

End TrainExtra.

Module BridgeSpec.
Import AutoMaskBridge BridgeFacts.

(** The selection of line 31 on a sample listing: the extension is
    compared in lower case, and a leading or trailing dot makes no
    extension. *)
Example select_files_sample :
  select_files ["b.jpg"; "notes.txt"; "a.JPG"; ".png"; "c.png"; "d.jpeg";
                "e.jpg."]
  = ["a.JPG"; "b.jpg"; "c.png"; "d.jpeg"].
Proof. vm_compute. reflexivity. Qed.

Section Bridge.
Context {box : Type}.
Variable predict : string -> path -> exception + list box.
Variable imread : path -> option image.
Variable sam : path -> list box -> exception + option (list mask).
Variable interp : kernel bool.
Variables (listing : list string) (input_dir output_dir : path)
  (prompt : string).

Local Abbreviation files :=
  ((fun n => input_dir ++ [n]) <$> select_files listing).
Local Abbreviation total := (length files).
Local Abbreviation body :=
  (process_one predict imread sam interp prompt output_dir).
Local Abbreviation turn :=
  (events_of predict imread sam interp prompt output_dir total).
Local Abbreviation batch :=
  (process_images predict imread sam interp listing input_dir output_dir
     prompt []).

(** C6.  For an input image in which the detector finds no box, the
    body of the loop returns normally (the handler does not run) after
    handing [cv2.imwrite] an image of the input's dimensions whose
    pixels are all [(0, 0, 0)], under the input's file name in the
    output directory; that write is part of the batch's log. *)
Theorem no_detection_writes_black (i : nat) file img :
  files !! i = Some file ->
  predict prompt file = inr [] ->
  imread file = Some img ->
  exists out,
    (forall s,
       body i total file s
       = (Ok tt, s ++ [Print_no_detection (i + 1) total (name file);
                       Imwrite (output_dir ++ [name file]) out]))
    /\ turn i file = [Print_no_detection (i + 1) total (name file);
                      Imwrite (output_dir ++ [name file]) out]
    /\ Imwrite (output_dir ++ [name file]) out ∈ batch.2
    /\ rows out = rows img /\ cols out = cols img
    /\ forall r c, at_ out r c = black.
Proof.
  intros Hi Hdet Himg. exists (zeros_like img).
  assert (Hbody : forall s,
            body i total file s
            = (Ok tt, s ++ [Print_no_detection (i + 1) total (name file);
                            Imwrite (output_dir ++ [name file])
                              (zeros_like img)])).
  { intros s. unfold process_one. run_M. rewrite Hdet, Himg. simpl.
    by rewrite <- app_assoc. }
  assert (Hturn : turn i file
                  = [Print_no_detection (i + 1) total (name file);
                     Imwrite (output_dir ++ [name file])
                       (zeros_like img)]).
  { unfold events_of, try_except. by rewrite Hbody. }
  split; [done|]. split; [done|]. split; [|done].
  unfold process_images.
  apply (turn_in_batch _ _ _ _ _ _ _ _ i file); [done|].
  rewrite Hturn. right. left.
Qed.

(** C7.  For an input image with at least one detected box (the image
    and the masks being non-empty arrays), the image handed to
    [cv2.imwrite] has the source's dimensions, equals the source at
    every position where some per-box mask, resized when its shape
    differs from the source's, is set, and is [(0, 0, 0)] elsewhere. *)
Theorem masked_output (i : nat) file img boxes seg :
  files !! i = Some file ->
  predict prompt file = inr boxes ->
  boxes <> [] ->
  imread file = Some img ->
  sam file boxes = inr seg ->
  nonempty img = true ->
  forallb nonempty (default [] seg) = true ->
  exists out,
    (forall s,
       body i total file s
       = (Ok tt, s ++ [Imwrite (output_dir ++ [name file]) out;
                       Print_processed (i + 1) total (name file)]))
    /\ Imwrite (output_dir ++ [name file]) out ∈ batch.2
    /\ rows out = rows img /\ cols out = cols img
    /\ forall r c,
         at_ out r c
         = if unioned interp img (default [] seg) r c
           then at_ img r c else black.
Proof.
  intros Hi Hdet Hboxes Himg Hsam Hne Hmasks.
  destruct (union_masks_spec interp img (default [] seg) Hne Hmasks
              (zeros_mask img) eq_refl eq_refl)
    as (combined & Hun & Hr & Hc & Hat).
  exists (blacken_outside img combined).
  assert (Hbody : forall s,
            body i total file s
            = (Ok tt, s ++ [Imwrite (output_dir ++ [name file])
                              (blacken_outside img combined);
                            Print_processed (i + 1) total (name file)])).
  { intros s. unfold process_one. run_M. rewrite Hdet, Himg. simpl.
    destruct boxes as [|b boxes']; [done|]. simpl. rewrite Hsam. simpl.
    destruct seg as [data|]; simpl in Hun.
    - rewrite Hun. simpl. by rewrite <- app_assoc.
    - inversion Hun; subst. simpl. by rewrite <- app_assoc. }
  split; [done|]. split; [|split; [done|split; [done|]]].
  - unfold process_images.
    apply (turn_in_batch _ _ _ _ _ _ _ _ i file); [done|].
    unfold events_of, try_except. rewrite Hbody. left.
  - intros r c. simpl. rewrite Hat. simpl.
    by destruct (unioned interp img (default [] seg) r c).
Qed.

(** C8 (amended).  The batch always runs to its end, and its log is the
    concatenation, file after file, of what each file's turn logs on
    its own, so no failure keeps a later image from being processed.
    An exception raised by the detector, by the segmentation model or
    by OpenCV while the masks are united is caught and logged with the
    file's name; whenever the body of the loop raises, what it raises
    is an [Exception], nothing was logged for the file before, and
    the handler's line is all the turn logs; an image that
    [cv2.imread] cannot read is skipped without any line in the log. *)
Theorem batch_survives_failures :
  batch = (Ok tt, concat (imap (fun i f => turn i f) files))
  /\ (forall i file e,
        predict prompt file = inl e ->
        turn i file = [Print_error (name file) e])
  /\ (forall i file boxes img e,
        predict prompt file = inr boxes -> boxes <> [] ->
        imread file = Some img ->
        sam file boxes = inl e ->
        turn i file = [Print_error (name file) e])
  /\ (forall i file boxes img data r,
        predict prompt file = inr boxes -> boxes <> [] ->
        imread file = Some img ->
        sam file boxes = inr (Some data) ->
        union_masks interp data (zeros_mask img) = Raise r ->
        r = Exc cv2_error
        /\ turn i file = [Print_error (name file) cv2_error])
  /\ (forall i file r s s',
        body i total file s = (Raise r, s') ->
        exists e,
          r = Exc e /\ s' = s
          /\ turn i file = [Print_error (name file) e])
  /\ (forall i file boxes,
        predict prompt file = inr boxes ->
        imread file = None ->
        turn i file = []).
Proof.
  split; [|split; [|split; [|split; [|split]]]].
  - unfold process_images. by rewrite for_files_log.
  - intros i file e He. unfold events_of, process_one. run_M.
    by rewrite He.
  - intros i file boxes img e Hdet Hne Himg He.
    unfold events_of, process_one. run_M. rewrite Hdet, Himg. simpl.
    destruct boxes; [done|]. simpl. by rewrite He.
  - intros i file boxes img data r Hdet Hne Himg Hsam Hun.
    pose proof (union_masks_raise interp _ _ _ Hun) as ->.
    split; [done|].
    unfold events_of, process_one. run_M. rewrite Hdet, Himg. simpl.
    destruct boxes; [done|]. simpl. rewrite Hsam. simpl.
    by rewrite Hun.
  - intros i file r s s' Hbody.
    rewrite (process_one_log predict imread sam interp prompt
               output_dir i total file s) in Hbody.
    unfold events_of, try_except.
    pose proof (process_one_no_exit predict imread sam interp prompt
                  output_dir i total file []) as Hne.
    revert Hbody Hne. unfold process_one. run_M.
    destruct (predict prompt file) as [e|boxes]; simpl.
    { intros [= <- <-] _. exists e. by rewrite app_nil_r. }
    destruct (imread file) as [img|]; simpl; [|done].
    destruct (length boxes =? 0)%nat; simpl; [done|].
    destruct (sam file boxes) as [e|seg]; simpl.
    { intros [= <- <-] _. exists e. by rewrite app_nil_r. }
    destruct (match seg with
              | Some data => union_masks interp data (zeros_mask img)
              | None => Ok (zeros_mask img)
              end) as [combined|[e|code]]; simpl; [done| |].
    + intros [= <- <-] _. exists e. by rewrite app_nil_r.
    + intros _ Hne. by destruct (Hne code).
  - intros i file boxes Hdet Himg.
    unfold events_of, process_one. run_M. by rewrite Hdet, Himg.
Qed.

End Bridge.

(** C8, as stated, fails: [d.jpeg] cannot be read, and the batch passes
    over it without any line in the log (the only events are those of
    [b.jpg]). *)
Lemma unreadable_image_is_not_logged :
  sample_imread ["in"; "d.jpeg"] = None
  /\ exists out,
       process_images eager_predict sample_imread sample_sam nearest_bool
         ["b.jpg"; "d.jpeg"] ["in"] ["out"] "bridge" []
       = (Ok tt, [Imwrite ["out"; "b.jpg"] out;
                  Print_processed 1 2 "b.jpg"]).
Proof. split; [reflexivity|]. eexists. vm_compute. reflexivity. Qed.

Lemma no_detection_writes_black_witness :
  exists out,
    Imwrite ["out"; "a.JPG"] out
      ∈ (process_images sample_predict sample_imread sample_sam
           nearest_bool ["b.jpg"; "a.JPG"; "c.png"] ["in"] ["out"]
           "bridge" []).2
    /\ rows out = 4 /\ cols out = 6
    /\ forall r c, at_ out r c = black.
Proof.
  destruct (no_detection_writes_black sample_predict sample_imread
              sample_sam nearest_bool ["b.jpg"; "a.JPG"; "c.png"] ["in"]
              ["out"] "bridge" 0%nat ["in"; "a.JPG"] (gradient 4 6)
              ltac:(vm_compute; reflexivity) eq_refl eq_refl)
    as (out & _ & _ & Hin & Hr & Hc & Hat).
  exists out. repeat split; assumption.
Defined.

Lemma masked_output_witness :
  exists out,
    Imwrite ["out"; "b.jpg"] out
      ∈ (process_images sample_predict sample_imread sample_sam
           nearest_bool ["b.jpg"; "a.JPG"; "c.png"] ["in"] ["out"]
           "bridge" []).2
    /\ rows out = 4 /\ cols out = 6
    /\ at_ out 1 2 = (1, 2, 3) /\ at_ out 1 4 = black.
Proof.
  destruct (masked_output sample_predict sample_imread sample_sam
              nearest_bool ["b.jpg"; "a.JPG"; "c.png"] ["in"] ["out"]
              "bridge" 1%nat ["in"; "b.jpg"] (gradient 4 6) [7%nat]
              (Some [left_half 4 6; left_half 2 3])
              ltac:(vm_compute; reflexivity) eq_refl ltac:(done) eq_refl
              eq_refl eq_refl eq_refl)
    as (out & _ & Hin & Hr & Hc & Hat).
  exists out. repeat split; try assumption.
  - rewrite Hat. reflexivity.
  - rewrite Hat. reflexivity.
Defined.

Lemma batch_survives_failures_witness :
  events_of sample_predict sample_imread sample_sam nearest_bool "bridge"
    ["out"] 3 2 ["in"; "c.png"]
  = [Print_error "c.png" (RuntimeError "model failed")].
Proof.
  apply (proj1 (proj2 (batch_survives_failures sample_predict
                         sample_imread sample_sam nearest_bool
                         ["b.jpg"; "a.JPG"; "c.png"] ["in"] ["out"]
                         "bridge"))
           2%nat ["in"; "c.png"] (RuntimeError "model failed") eq_refl).
Defined.

(** An OpenCV error on the way: a mask without rows or columns cannot
    be resized to the image's shape, and the turn logs the error under
    the file's name. *)
Example opencv_error_is_logged :
  events_of eager_predict sample_imread
    (fun _ _ => inr (Some [Ndarray 0 0 (fun _ _ => false)]))
    nearest_bool "bridge" ["out"] 1 0 ["in"; "b.jpg"]
  = [Print_error "b.jpg" cv2_error].
Proof. reflexivity. Qed.

End BridgeSpec.

(* ===================================================================== *)
(** * More on the masking bridge                                          *)
(* ===================================================================== *)

Module BridgeMoreFacts.
Import AutoMaskBridge BridgeFacts BridgeViews.

Lemma name_child (dir : path) (n : string) : name (dir ++ [n]) = n.
Proof. unfold name. by rewrite last_snoc. Qed.

Lemma written_app l1 l2 : written (l1 ++ l2) = written l1 ++ written l2.
Proof. apply omap_app. Qed.

(** The names selected are the image names of the listing. *)
Lemma select_files_elem listing n :
  n ∈ select_files listing <-> n ∈ listing /\ is_image_name n = true.
Proof.
  unfold select_files. rewrite merge_sort_Permutation.
  by rewrite list_elem_of_filter, (comm and).
Qed.

(** ** The extension of a file name *)

Lemma rfind_dot_dotless s : forall k found,
  dotless s = true -> rfind_dot s k found = found.
Proof.
  induction s as [|c s IH]; intros k found H; [done|].
  simpl in H. apply andb_true_iff in H as [Hc Hs].
  simpl. rewrite IH by done.
  by destruct (Ascii.eqb c "."%char).
Qed.

Lemma rfind_dot_split a b : forall k found,
  dotless b = true ->
  rfind_dot (a +:+ "." +:+ b) k found = Some (k + String.length a)%nat.
Proof.
  induction a as [|c a IH]; intros k found Hb.
  - rewrite PyFacts.append_nil. simpl.
    rewrite rfind_dot_dotless by done. f_equal. lia.
  - rewrite PyFacts.append_cons. simpl. rewrite IH by done.
    f_equal. lia.
Qed.

Lemma rfind_dot_inv s : forall k found i,
  rfind_dot s k found = Some i ->
  (found = Some i /\ dotless s = true)
  \/ exists a b,
       s = a +:+ "." +:+ b /\ dotless b = true
       /\ i = (k + String.length a)%nat.
Proof.
  induction s as [|c s IH]; intros k found i H; [by left|].
  simpl in H. apply IH in H as [[Hf Hs]|(a & b & -> & Hb & ->)].
  - destruct (Ascii.eqb_spec c "."%char) as [->|Hc].
    + right. exists "", s. rewrite PyFacts.append_nil.
      split; [done|]. split; [done|]. inversion Hf. simpl. lia.
    + left. split; [done|]. simpl. rewrite Hs.
      by destruct (Ascii.eqb_spec c "."%char).
  - right. exists (String c a), b. rewrite PyFacts.append_cons.
    split; [done|]. split; [done|]. simpl. lia.
Qed.

Lemma substring_all s : String.substring 0 (String.length s) s = s.
Proof. induction s as [|c s IH]; simpl; [done|by rewrite IH]. Qed.

Lemma substring_skip a s n :
  String.substring (String.length a) n (a +:+ s) = String.substring 0 n s.
Proof.
  induction a as [|c a IH]; [done|].
  rewrite PyFacts.append_cons. simpl. exact IH.
Qed.

Lemma lower_append a b : lower (a +:+ b) = lower a +:+ lower b.
Proof.
  induction a as [|c a IH]; [done|].
  rewrite PyFacts.append_cons. simpl. rewrite IH.
  by rewrite PyFacts.append_cons.
Qed.

Lemma lower_dotless s : dotless (lower s) = true -> dotless s = true.
Proof.
  induction s as [|c s IH]; [done|]. simpl.
  intros H. apply andb_true_iff in H as [Hc Hs].
  rewrite IH by done. rewrite andb_true_r.
  destruct (Ascii.eqb_spec c "."%char) as [->|]; [|done].
  by vm_compute in Hc.
Qed.

(** What the suffix of a name is. *)
Lemma suffix_split stem ext :
  stem <> "" -> ext <> "" -> dotless ext = true ->
  suffix (stem +:+ "." +:+ ext) = "." +:+ ext.
Proof.
  intros Hs He Hd. unfold suffix.
  rewrite rfind_dot_split by done. rewrite Nat.add_0_l.
  rewrite !PyFacts.length_append. simpl String.length.
  assert (0 < String.length stem)%nat by (destruct stem; [done|simpl; lia]).
  assert (0 < String.length ext)%nat by (destruct ext; [done|simpl; lia]).
  repeat match goal with
         | |- context [(?a <? ?b)%nat] =>
             destruct (Nat.ltb_spec a b); [|lia]
         end.
  cbn [andb]. rewrite substring_skip.
  match goal with
  | |- context [substring 0 ?n _] =>
      replace n with (String.length ("." +:+ ext))
        by (rewrite PyFacts.length_append; simpl; lia)
  end.
  by rewrite substring_all.
Qed.

Lemma suffix_inv n :
  suffix n <> "" ->
  exists stem ext,
    n = stem +:+ "." +:+ ext /\ stem <> "" /\ dotless ext = true
    /\ suffix n = "." +:+ ext.
Proof.
  unfold suffix. intros H.
  destruct (rfind_dot n 0 None) as [i|] eqn:Hi; [|done].
  destruct ((0 <? i)%nat && (i <? String.length n - 1)%nat) eqn:Hb;
    [|done].
  apply andb_true_iff in Hb as [H0 H1].
  apply Nat.ltb_lt in H0. apply Nat.ltb_lt in H1.
  apply rfind_dot_inv in Hi as [[? _]|(a & b & -> & Hb & ->)]; [done|].
  exists a, b. split; [done|]. split; [by destruct a; [simpl in H0; lia|]|].
  split; [done|].
  rewrite Nat.add_0_l, substring_skip.
  match goal with
  | |- context [substring 0 ?n _] =>
      replace n with (String.length ("." +:+ b))
        by (rewrite !PyFacts.length_append; simpl; lia)
  end.
  by rewrite substring_all.
Qed.

(** The image names, by stem and extension. *)
Lemma is_image_name_spec n :
  is_image_name n = true
  <-> exists stem ext,
        n = stem +:+ "." +:+ ext
        /\ stem <> ""
        /\ lower ext ∈ ["jpg"; "png"; "jpeg"].
Proof.
  unfold is_image_name. rewrite bool_decide_eq_true. split.
  - intros Hin.
    destruct (suffix_inv n) as (stem & ext & Hn & Hs & Hd & Hsuf).
    { intros Heq. rewrite Heq in Hin. simpl in Hin.
      repeat (apply elem_of_cons in Hin as [Hin|Hin]; [done|]).
      by apply elem_of_nil in Hin. }
    exists stem, ext. split; [done|]. split; [done|].
    rewrite Hsuf, lower_append in Hin.
    change (lower ".") with "." in Hin.
    rewrite PyFacts.append_cons, PyFacts.append_nil in Hin.
    repeat (apply elem_of_cons in Hin as [Hin|Hin];
            [inversion Hin as [Heq]; rewrite Heq;
             repeat first [by left | right]|]).
    by apply elem_of_nil in Hin.
  - intros (stem & ext & -> & Hs & Hin).
    assert (Hd : dotless ext = true).
    { apply lower_dotless.
      repeat (apply elem_of_cons in Hin as [->|Hin]; [done|]).
      by apply elem_of_nil in Hin. }
    assert (He : ext <> "").
    { intros ->. simpl in Hin.
      repeat (apply elem_of_cons in Hin as [Hin|Hin]; [done|]).
      by apply elem_of_nil in Hin. }
    rewrite suffix_split, lower_append by done.
    change (lower ".") with ".".
    rewrite PyFacts.append_cons, PyFacts.append_nil.
    repeat (apply elem_of_cons in Hin as [->|Hin];
            [repeat first [by left | right]|]).
    by apply elem_of_nil in Hin.
Qed.

Section Bridge.
Context {box : Type}.
Variable predict : string -> path -> exception + list box.
Variable imread : path -> option image.
Variable sam : path -> list box -> exception + option (list mask).
Variable interp : kernel bool.
Variables (prompt : string) (od : path) (total : nat).

Local Abbreviation turn :=
  (events_of predict imread sam interp prompt od total).

(** What one turn can log. *)
Lemma turn_cases i file :
  turn i file = []
  \/ (exists e, turn i file = [Print_error (name file) e])
  \/ (exists img,
        imread file = Some img
        /\ turn i file
           = [Print_no_detection (i + 1) total (name file);
              Imwrite (od ++ [name file]) (zeros_like img)])
  \/ (exists img m,
        imread file = Some img
        /\ turn i file
           = [Imwrite (od ++ [name file]) (blacken_outside img m);
              Print_processed (i + 1) total (name file)]).
Proof.
  unfold events_of, process_one. run_M.
  destruct (predict prompt file) as [e|boxes]; simpl;
    [right; left; by eexists|].
  destruct (imread file) as [img|]; simpl; [|by left].
  destruct (length boxes =? 0)%nat; simpl;
    [right; right; left; by eexists|].
  destruct (sam file boxes) as [e|seg]; simpl;
    [right; left; by eexists|].
  destruct (match seg with
            | Some data => union_masks interp data (zeros_mask img)
            | None => Ok (zeros_mask img)
            end) as [combined|r] eqn:Hu; simpl.
  - right; right; right. by eexists _, _.
  - destruct seg as [data|]; [|done].
    rewrite (union_masks_raise _ _ _ _ Hu). simpl.
    right; left. by eexists.
Qed.

Lemma turn_written i file :
  written (turn i file) = []
  \/ written (turn i file) = [od ++ [name file]].
Proof.
  destruct (turn_cases i file)
    as [Hw | [[e Hw] | [(img & _ & Hw) | (img & m & _ & Hw)]]]; rewrite Hw;
    simpl; auto.
Qed.

Lemma turn_imwrite i file p out :
  Imwrite p out ∈ turn i file ->
  p = od ++ [name file]
  /\ exists src, imread file = Some src
                 /\ rows out = rows src /\ cols out = cols src.
Proof.
  destruct (turn_cases i file)
    as [Hw | [[e Hw] | [(img & Him & Hw) | (img & m & Him & Hw)]]];
    rewrite Hw; intros Hin.
  - by apply elem_of_nil in Hin.
  - apply list_elem_of_singleton in Hin. discriminate.
  - apply elem_of_cons in Hin as [Hin|Hin]; [discriminate|].
    apply list_elem_of_singleton in Hin. inversion Hin; subst.
    split; [done|]. by exists img.
  - apply elem_of_cons in Hin as [Hin|Hin].
    + inversion Hin; subst. split; [done|]. by exists img.
    + apply list_elem_of_singleton in Hin. discriminate.
Qed.

(** The writes of a batch follow its files: at most one per file, in
    the order of the files, under the file's name. *)
Lemma batch_written dir (names : list string) : forall i,
  written (concat (imap (fun j f => turn (i + j) f)
                     ((fun n => dir ++ [n]) <$> names)))
  `sublist_of` ((fun n => od ++ [n]) <$> names).
Proof.
  induction names as [|n rest IH]; intros i; [done|].
  cbn [fmap list_fmap imap concat]. rewrite written_app.
  change ((od ++ [n]) :: ((fun n0 => od ++ [n0]) <$> rest))
    with ([od ++ [n]] ++ ((fun n0 => od ++ [n0]) <$> rest)).
  apply sublist_app.
  - destruct (turn_written (i + 0) (dir ++ [n])) as [Hw | Hw]; rewrite Hw.
    + apply sublist_nil_l.
    + by rewrite name_child.
  - erewrite imap_ext; [apply (IH (S i))|].
    intros j x _. simpl. f_equal. lia.
Qed.

End Bridge.

End BridgeMoreFacts.

Module BridgeExtra.
Import AutoMaskBridge BridgeFacts BridgeViews BridgeMoreFacts.

(** X20.  The files processed are the entries of the listing, each as
    often as listed and in ascending order of their names, whose name
    is a non-empty stem, a dot and an extension that reads [jpg],
    [png] or [jpeg] when put in lower case: [a.JPG] and [b.tar.png]
    are taken, [.png] (no stem) and [c.jpg.] (no extension) are not. *)
Theorem select_files_sorted_images listing :
  Sorted String.le (select_files listing)
  /\ select_files listing
     ≡ₚ filter (fun n => is_image_name n = true) listing
  /\ forall n,
       n ∈ select_files listing
       <-> n ∈ listing
           /\ exists stem ext,
                n = stem +:+ "." +:+ ext
                /\ stem <> ""
                /\ lower ext ∈ ["jpg"; "png"; "jpeg"].
Proof.
  split; [|split].
  - apply (Sorted_merge_sort String.le).
  - apply merge_sort_Permutation.
  - intros n. by rewrite select_files_elem, is_image_name_spec.
Qed.

Section Bridge.
Context {box : Type}.
Variable predict : string -> path -> exception + list box.
Variable imread : path -> option image.
Variable sam : path -> list box -> exception + option (list mask).
Variable interp : kernel bool.
Variables (listing : list string) (input_dir output_dir : path)
  (prompt : string).

Local Abbreviation batch :=
  (process_images predict imread sam interp listing input_dir output_dir
     prompt []).

(** X21.  A batch writes at most one image per selected file, in the
    order of the files and under the file's own name in the output
    directory; it writes nothing else. *)
Theorem writes_follow_inputs :
  written batch.2
  `sublist_of` ((fun n => output_dir ++ [n]) <$> select_files listing).
Proof.
  unfold process_images. rewrite for_files_log. simpl.
  apply (batch_written predict imread sam interp prompt output_dir _
           input_dir (select_files listing) 0).
Qed.

(** X22.  Every image a batch writes has the dimensions of the input
    image it comes from, an image-named entry of the listing that
    [cv2.imread] could read. *)
Theorem written_images_keep_size p out :
  Imwrite p out ∈ batch.2 ->
  exists n src,
    n ∈ listing /\ is_image_name n = true
    /\ p = output_dir ++ [n]
    /\ imread (input_dir ++ [n]) = Some src
    /\ rows out = rows src /\ cols out = cols src.
Proof.
  unfold process_images. rewrite for_files_log. simpl.
  intros Hin. apply list_elem_of_In, in_concat in Hin as (l & Hl & Hev).
  apply list_elem_of_In, list_elem_of_lookup in Hl as [i Hi].
  rewrite list_lookup_imap in Hi.
  destruct (((fun n => input_dir ++ [n]) <$> select_files listing) !! i)
    as [file|] eqn:Hf; [|done].
  simpl in Hi. inversion Hi; subst l. clear Hi.
  rewrite list_lookup_fmap in Hf.
  destruct (select_files listing !! i) as [n|] eqn:Hn; [|done].
  simpl in Hf. inversion Hf; subst file. clear Hf.
  apply list_elem_of_In, turn_imwrite in Hev as (-> & src & Hsrc & Hr & Hc).
  rewrite name_child.
  assert (Hsel : n ∈ select_files listing)
    by (apply list_elem_of_lookup; by exists i).
  apply select_files_elem in Hsel as [Hl Him].
  by exists n, src.
Qed.

(** X23.  When boxes are detected but the segmentation model returns
    no masks, the image is written entirely black and the file is
    reported as processed, not as a missing detection. *)
Theorem no_masks_writes_black (i total : nat) file img boxes :
  predict prompt file = inr boxes ->
  boxes <> [] ->
  imread file = Some img ->
  sam file boxes = inr None ->
  exists out,
    events_of predict imread sam interp prompt output_dir total i file
    = [Imwrite (output_dir ++ [name file]) out;
       Print_processed (i + 1) total (name file)]
    /\ rows out = rows img /\ cols out = cols img
    /\ forall r c, at_ out r c = black.
Proof.
  intros Hdet Hne Himg Hsam.
  exists (blacken_outside img (zeros_mask img)).
  split; [|done].
  unfold events_of, process_one. run_M. rewrite Hdet, Himg. simpl.
  destruct boxes; [done|]. simpl. by rewrite Hsam.
Qed.

End Bridge.

Lemma written_images_keep_size_witness :
  exists n src,
    n ∈ ["b.jpg"; "a.JPG"; "c.png"] /\ is_image_name n = true
    /\ ["out"; "a.JPG"] = ["out"] ++ [n]
    /\ sample_imread (["in"] ++ [n]) = Some src
    /\ rows (zeros_like (gradient 4 6)) = rows src
    /\ cols (zeros_like (gradient 4 6)) = cols src.
Proof.
  apply (written_images_keep_size sample_predict sample_imread sample_sam
           nearest_bool ["b.jpg"; "a.JPG"; "c.png"] ["in"] ["out"]
           "bridge" ["out"; "a.JPG"] (zeros_like (gradient 4 6))).
  apply list_elem_of_lookup. exists 1%nat. vm_compute. reflexivity.
Defined.

(** A detector that finds a box where the segmentation finds nothing. *)
Lemma no_masks_writes_black_witness :
  exists out,
    events_of eager_predict sample_imread (fun _ _ => inr None)
      nearest_bool "bridge" ["out"] 1 0 ["in"; "b.jpg"]
    = [Imwrite (["out"] ++ [name ["in"; "b.jpg"]]) out;
       Print_processed (0 + 1) 1 (name ["in"; "b.jpg"])]
    /\ rows out = rows (gradient 4 6) /\ cols out = cols (gradient 4 6)
    /\ forall r c, at_ out r c = black.
Proof.
  apply (no_masks_writes_black eager_predict sample_imread
           (fun _ _ => inr None) nearest_bool ["out"] "bridge" 0 1
           ["in"; "b.jpg"] (gradient 4 6) [7%nat]);
    [reflexivity | done | reflexivity | reflexivity].
Defined.

End BridgeExtra.

(* ===================================================================== *)
(** * The full pipeline                                                   *)
(* ===================================================================== *)

Module PipelineFacts.
Import Py Fs ExtractFrames FsFacts SamplerFacts SamplerMoreFacts.
Import ColmapFacts FullPipeline.

Lemma set_fs_get_fs (w : world) : set_fs (get_fs w) w = w.
Proof. by destruct w as [[t l d] pr]. Qed.



Section Pipeline.
Variable cv2 : opencv.
Variable subprocess_run :
  option path -> list string -> gmap path (entry content)
  -> result Z * gmap path (entry content).
Variable executable : string.
Variable st_size : entry content -> Z.
Variable importable : string -> bool.


(** An import that goes through does nothing else. *)
Lemma import_found {A} name (m : M world A) w :
  importable name = true -> (import_ importable name;; m) w = m w.
Proof. intros H. unfold import_. by rewrite H. Qed.

(** An import that fails ends the run where it stands. *)
Lemma import_missing {A} name (m : M world A) w :
  importable name = false ->
  (import_ importable name;; m) w = (Raise (Exc ModuleNotFoundError), w).
Proof. intros H. unfold import_. by rewrite H. Qed.

(** The first stage on a fresh world is a call of the sampler. *)
Lemma stage_frames_fresh (a : args) t :
  skip_frames a = false ->
  importable "extract_frames" = true ->
  stage_frames cv2 importable a (Samples.fresh t)
  = let out := run cv2 t (video a) (output a) (frame_interval a)
                 (Some (max_frames a)) (Some (resize_width a)) in
    (match out.1 with
     | Ok _ => Ok tt
     | Raise r => Raise r
     end, World out.2 []).
Proof.
  intros Hskip Himp. unfold stage_frames. rewrite Hskip. cbn [negb].
  rewrite import_found by done.
  unfold zoom, run, Samples.fresh.
  unfold mbind, M_bind, bind, mret, M_ret, ret. simpl.
  by destruct (extract_frames _ _ _ _ _ _ _) as [[p|r] w1].
Qed.

(** A sampler that returns has left its image directory in place. *)
Lemma run_leaves_input_dir t video_path output_dir k mf rw p :
  (run cv2 t video_path output_dir k mf rw).1 = Ok p ->
  fs (run cv2 t video_path output_dir k mf rw).2
    !! (output_dir ++ ["input"]) = Some Dir.
Proof.
  rewrite run_cases.
  destruct (mkdir_parents (output_dir ++ ["input"]) t) as [t'|r] eqn:Hdir;
    [|done].
  destruct (cv_open cv2 t' video_path) as [v|]; [|done].
  destruct (floordiv (frame_count v) k); [|done].
  cbn [fst snd]. intros _.
  rewrite loop_fs_frame by (intros j; apply app_singleton_ne_self).
  simpl. apply (mkdir_parents_dir _ _ _ Hdir). by destruct output_dir.
Qed.


End Pipeline.

End PipelineFacts.

Module PipelineExtra.
Import Py Fs ExtractFrames FsFacts SamplerFacts FullPipeline PipelineFacts.
Import Samples.

Section Pipeline.
Variable cv2 : opencv.
Variable subprocess_run :
  option path -> list string -> gmap path (entry content)
  -> result Z * gmap path (entry content).
Variable executable : string.
Variable st_size : entry content -> Z.
Variable importable : string -> bool.

Local Abbreviation pipeline :=
  (main cv2 subprocess_run executable st_size importable).

(** X24.  When OpenCV cannot open the video the pipeline ends with
    exit status 1 in its first stage: the project's [input] directory
    has been made, and neither COLMAP nor training is started. *)
Theorem pipeline_stops_without_video (a : args) t t' :
  skip_frames a = false ->
  importable "extract_frames" = true ->
  mkdir_parents (output a ++ ["input"]) t = Ok t' ->
  cv_open cv2 t' (video a) = None ->
  pipeline a (fresh t) = (Raise (SystemExit 1), fresh t').
Proof.
  intros Hskip Himp Hdir Hno. unfold main.
  unfold mbind at 1, M_bind, bind.
  rewrite (stage_frames_fresh cv2 importable a t Hskip Himp).
  by rewrite (run_unopened cv2 t (video a) (output a) _ _ _ t' Hdir Hno).
Qed.

(** X25.  With [--skip-frames], a module [run_colmap] that can be
    imported and no [input] directory in the project, the pipeline
    ends with exit status 1 at the SfM stage without creating anything
    or starting a process. *)
Theorem skipped_frames_need_input (a : args) (w : world) :
  skip_frames a = true ->
  skip_colmap a = false ->
  importable "run_colmap" = true ->
  exists_ (get_fs w) (output a ++ ["input"]) = false ->
  pipeline a w = (Raise (SystemExit 1), w).
Proof.
  intros Hskip Hcol Himp Hin.
  unfold main, stage_frames, stage_colmap.
  rewrite Hskip, Hcol. cbn [negb].
  unfold mbind at 1 2, M_bind, bind, mret, M_ret, ret.
  rewrite import_found by done. unfold zoom.
  unfold RunColmap.run_colmap_preprocessing, RunColmap.sfm_steps.
  unfold mbind, M_bind, bind, mret, M_ret, ret, gets. simpl.
  rewrite Hin. simpl. by rewrite set_fs_get_fs.
Qed.

(** X26.  Whenever the frame stage returns normally, the project's
    [input] directory exists, even when no frame was written. *)
Theorem frame_stage_leaves_input (a : args) t :
  skip_frames a = false ->
  (stage_frames cv2 importable a (fresh t)).1 = Ok tt ->
  exists_ (get_fs (stage_frames cv2 importable a (fresh t)).2)
    (output a ++ ["input"]) = true.
Proof.
  intros Hskip.
  destruct (importable "extract_frames") eqn:Himp.
  - rewrite (stage_frames_fresh cv2 importable a t Hskip Himp).
    cbn [fst snd]. intros Hok.
    destruct (run cv2 t (video a) (output a) (frame_interval a)
                (Some (max_frames a)) (Some (resize_width a))).1
      as [p|r] eqn:Hrun; [|done].
    unfold exists_, get_fs. rewrite stat_app. simpl.
    by rewrite (run_leaves_input_dir cv2 _ _ _ _ _ _ p Hrun).
  - unfold stage_frames. rewrite Hskip. cbn [negb].
    by rewrite import_missing.
Qed.


(** X28.  The stages after the first die at their import when the
    module is not on the search path, as in the repository, where
    [run_colmap.py] and [train_gaussian.py] are in [Scripts/] and not
    beside [run_full_pipeline.py]: once the frame stage has returned
    (or was skipped), the first stage that is not skipped ends the
    run with [ModuleNotFoundError], on the filesystem the frame stage
    left, before any COLMAP or training command. *)
Theorem later_stages_need_their_modules (a : args) (w : world) :
  (stage_frames cv2 importable a w).1 = Ok tt ->
  (skip_colmap a = false /\ importable "run_colmap" = false)
  \/ (skip_colmap a = true /\ skip_training a = false
      /\ importable "train_gaussian" = false) ->
  pipeline a w
  = (Raise (Exc ModuleNotFoundError),
     (stage_frames cv2 importable a w).2).
Proof.
  intros Hok Hcase. unfold main.
  unfold mbind at 1, M_bind, bind.
  destruct (stage_frames cv2 importable a w) as [[[]|r] w1];
    [|done]. cbn [snd].
  destruct Hcase as [[Hcol Himp]|(Hcol & Htr & Himp)].
  - unfold mbind at 1, M_bind, bind.
    unfold stage_colmap. rewrite Hcol. cbn [negb].
    by rewrite import_missing.
  - unfold mbind at 1, M_bind, bind.
    unfold stage_colmap, stage_training. rewrite Hcol, Htr.
    cbn [negb]. unfold mret, M_ret, ret.
    by rewrite import_missing.
Qed.

End Pipeline.

Lemma pipeline_stops_without_video_witness :
  main stub_cv2 quiet "python" size_of_content beside_script
    (pipeline_args false) (fresh (disk (clip 5 4 6)))
  = (Raise (SystemExit 1), fresh made_dirs).
Proof.
  apply (pipeline_stops_without_video stub_cv2 quiet "python"
           size_of_content beside_script (pipeline_args false)
           (disk (clip 5 4 6)) made_dirs);
    reflexivity.
Defined.

Lemma skipped_frames_need_input_witness :
  main stub_cv2 quiet "python" size_of_content with_scripts
    (pipeline_args true) (fresh (disk (clip 5 4 6)))
  = (Raise (SystemExit 1), fresh (disk (clip 5 4 6))).
Proof.
  apply (skipped_frames_need_input stub_cv2 quiet "python"
           size_of_content with_scripts (pipeline_args true)
           (fresh (disk (clip 5 4 6))));
    reflexivity.
Defined.

Lemma frame_stage_leaves_input_witness :
  exists_ (get_fs (stage_frames stub_cv2 beside_script clip_args
                     (fresh (disk (clip 5 4 6)))).2)
    (output clip_args ++ ["input"]) = true.
Proof.
  apply (frame_stage_leaves_input stub_cv2 beside_script clip_args
           (disk (clip 5 4 6)));
    [reflexivity | vm_compute; reflexivity].
Defined.


(** The repository as it is laid out: with the frames already there,
    the pipeline stops at the import of [run_colmap]. *)
Lemma later_stages_need_their_modules_witness :
  main stub_cv2 quiet "python" size_of_content beside_script
    (pipeline_args true) (fresh (disk (clip 5 4 6)))
  = (Raise (Exc ModuleNotFoundError),
     (stage_frames stub_cv2 beside_script (pipeline_args true)
        (fresh (disk (clip 5 4 6)))).2).
Proof.
  apply (later_stages_need_their_modules stub_cv2 quiet "python"
           size_of_content beside_script (pipeline_args true)
           (fresh (disk (clip 5 4 6))));
    [reflexivity | left; split; reflexivity].
Defined.

End PipelineExtra.
